(** * Teleport connectivity-and-trust core: dialer, authorizing tunnel, expiry

  A shallow embedding of
  - [lib/auth/authclient/authclient.go]  ([Connect] and its two dial paths),
  - the U2F polling code of [webauthncli] ([RunOnU2FDevices] and
    [runOnU2FDevicesOnce]),
  - [lib/reversetunnelclient] ([TunnelWithRoles.GetSites] / [GetSite]),
  - the expiry computation exercised by [TestGetDisconnectExpiredCertFromIdentity],
  together with the properties the specification states about them.

  Go functions that return [(T, error)] return a [result T]; calls into
  collaborators (interfaces, other packages) are recorded in an event log
  that is threaded through a small state monad, so that statements such as
  "no lookup is performed" or "the client is closed before the error is
  returned" are statements about that log.  A Go runtime panic (index out
  of range, nil dereference) aborts the computation with [Panic]. *)

From Stdlib Require Import String List Bool Arith ZArith Lia.
From stdpp Require Import base list gmap strings.
Import ListNotations.
Local Open Scope string_scope.
Local Open Scope list_scope.
Set Warnings "-register-all".

(** ** Errors of [github.com/gravitational/trace] *)

Module Trace.

(** The error classes of the trace package; [Plain] is an error that is
    not one of them (for instance one made with [errors.New]). *)
Inductive Kind :=
| NotFound | AlreadyExists | BadParameter | NotImplemented | CompareFailed
| AccessDenied | ConnectionProblem | LimitExceeded | Trust | Plain.

(** Errors are kept as terms: a primitive error of some class, an error
    carrying a user message added by [trace.Wrap(err, format, args...)]
    (format and arguments are kept as given), or the aggregate built by
    [trace.NewAggregate]. *)
Inductive error :=
| New (k : Kind) (msg : string)
| UserMessage (e : error) (format : string) (args : list error)
| Aggregate (errs : list error).

Definition Kind_eqb (a b : Kind) : bool :=
  match a, b with
  | NotFound, NotFound | AlreadyExists, AlreadyExists
  | BadParameter, BadParameter | NotImplemented, NotImplemented
  | CompareFailed, CompareFailed | AccessDenied, AccessDenied
  | ConnectionProblem, ConnectionProblem | LimitExceeded, LimitExceeded
  | Trust, Trust | Plain, Plain => true
  | _, _ => false
  end.

(** The class of an error is the class of the error at the bottom of the
    chain of user messages; an aggregate belongs to no class. *)
Fixpoint is_kind (k : Kind) (e : error) : bool :=
  match e with
  | New k' _ => Kind_eqb k k'
  | UserMessage e' _ _ => is_kind k e'
  | Aggregate _ => false
  end.

Definition IsNotFound : error -> bool := is_kind NotFound.
Definition IsAccessDenied : error -> bool := is_kind AccessDenied.

(** [trace.Wrap(err)] on a non-nil error: the same error with a stack
    trace attached; the stack trace is not part of the model. *)
Definition Wrap (e : error) : error := e.

(** [trace.Wrap(err, format, args...)] on a non-nil error. *)
Definition WrapMessage (e : error) (format : string) (args : list error) : error :=
  UserMessage e format args.

(** [trace.NewAggregate(errs...)] on errors none of which is nil, at
    least one of them.  (Nil arguments, which trace drops, do not occur in
    the code modelled here.) *)
Definition NewAggregate (errs : list error) : error := Aggregate errs.

(** The error at the bottom of a chain of user messages. *)
Fixpoint cause (e : error) : error :=
  match e with
  | UserMessage e' _ _ => cause e'
  | _ => e
  end.

(** The errors an aggregate was built from (an error that is not an
    aggregate stands for itself). *)
Definition members (e : error) : list error :=
  match e with
  | Aggregate errs => errs
  | _ => [e]
  end.

End Trace.
Export Trace(error).

(** ** Go results and the effect monad *)

(** The pair [(T, error)] returned by a Go function. *)
Inductive result (T : Type) :=
| Ok (v : T)
| Err (e : error).
Arguments Ok {T} v.
Arguments Err {T} e.

(** Runtime panics that the modelled code can raise. *)
Inductive panic :=
| IndexOutOfRange (index : nat) (len : nat)
| NilDereference (what : string).

Inductive outcome (A : Type) :=
| Ret (a : A)
| Panic (p : panic).
Arguments Ret {A} a.
Arguments Panic {A} p.

Section Monad.
Context {E : Type}.

(** A computation reads and extends the log of events, newest first. *)
Definition M (A : Type) : Type := list E -> outcome A * list E.

Definition ret {A} (a : A) : M A := fun h => (Ret a, h).

Definition bind {A B} (m : M A) (k : A -> M B) : M B :=
  fun h => match m h with
           | (Ret a, h') => k a h'
           | (Panic p, h') => (Panic p, h')
           end.

Definition raise {A} (p : panic) : M A := fun h => (Panic p, h).

(** Ask a collaborator (whose answer may depend on everything that
    happened so far) and record the call with its answer. *)
Definition call {A} (answer : list E -> A) (ev : A -> E) : M A :=
  fun h => let a := answer h in (Ret a, ev a :: h).

(** An effect without a result that the code looks at. *)
Definition emit (ev : E) : M unit := fun h => (Ret tt, ev :: h).
End Monad.

Notation "x <- m ;; k" := (bind m (fun x => k))
  (at level 100, m at next level, right associativity).
Notation "m ;;; k" := (bind m (fun _ => k))
  (at level 100, right associativity).

(** ** [lib/reversetunnelclient]: the authorizing tunnel *)

Module Reversetunnelclient.
Import Trace.

(** A [RemoteSite] as far as this package looks at it: its name, and the
    rest of the site, which is handed on untouched. *)
Record RemoteSite := { GetName : string; site_conn : nat }.

(** [types.RemoteCluster], the trust record kept for a site name. *)
Record RemoteCluster := { rc_name : string; rc_labels : list (string * string) }.

(** The [Tunnel] interface. *)
Record Tunnel := {
  tunnel_GetSites : result (list RemoteSite);
  tunnel_GetSite : string -> result RemoteSite }.

(** The [ClusterGetter] interface. *)
Record ClusterGetter := {
  GetRemoteCluster : string -> result RemoteCluster }.

(** The one method of [services.AccessChecker] used here; [None] is a
    nil error. *)
Record AccessChecker := {
  CheckAccessToRemoteCluster : RemoteCluster -> option error }.

Record TunnelWithRoles := {
  tunnel : Tunnel;
  localCluster : string;
  accessChecker : AccessChecker;
  access : ClusterGetter }.

Definition NewTunnelWithRoles (tun : Tunnel) (local : string)
    (checker : AccessChecker) (getter : ClusterGetter) : TunnelWithRoles :=
  {| tunnel := tun; localCluster := local;
     accessChecker := checker; access := getter |}.

(** The calls a [TunnelWithRoles] makes, each with the answer it got.
    [CallCheckAccess] also records the name of the site the check was
    made for. *)
Inductive Event :=
| CallTunnelGetSites (r : result (list RemoteSite))
| CallTunnelGetSite (clusterName : string) (r : result RemoteSite)
| CallGetRemoteCluster (clusterName : string) (r : result RemoteCluster)
| CallCheckAccess (site : string) (rc : RemoteCluster) (r : option error)
| Warningf (format : string) (arg : string).

(** The collaborators answer as functions of their argument: one call of
    [GetSites] or [GetSite] sees one state of the resource store and of
    the caller's roles. *)
Definition do_tunnel_GetSites (t : TunnelWithRoles) : M (result (list RemoteSite)) :=
  call (fun _ => tunnel_GetSites (tunnel t)) CallTunnelGetSites.

Definition do_tunnel_GetSite (t : TunnelWithRoles) (clusterName : string)
    : M (result RemoteSite) :=
  call (fun _ => tunnel_GetSite (tunnel t) clusterName) (CallTunnelGetSite clusterName).

Definition do_GetRemoteCluster (t : TunnelWithRoles) (clusterName : string)
    : M (result RemoteCluster) :=
  call (fun _ => GetRemoteCluster (access t) clusterName)
       (CallGetRemoteCluster clusterName).

Definition do_CheckAccess (t : TunnelWithRoles) (site : string) (rc : RemoteCluster)
    : M (option error) :=
  call (fun _ => CheckAccessToRemoteCluster (accessChecker t) rc)
       (CallCheckAccess site rc).

(** The warning logged for a site without a resource. *)
Definition warn_dangling (cluster : RemoteSite) : Event :=
  Warningf "Skipping dangling cluster %q, no remote cluster resource found."
           (GetName cluster).

(** The body of the [for _, cluster := range clusters] loop of
    [GetSites], with [out] the slice built so far. *)
Fixpoint GetSites_range (t : TunnelWithRoles) (clusters out : list RemoteSite)
    : M (result (list RemoteSite)) :=
  match clusters with
  | [] => ret (Ok out)
  | cluster :: rest =>
      if String.eqb (localCluster t) (GetName cluster) then
        GetSites_range t rest (out ++ [cluster])
      else
        r <- do_GetRemoteCluster t (GetName cluster) ;;
        match r with
        | Err err =>
            if negb (IsNotFound err) then ret (Err (Wrap err))
            else
              emit (warn_dangling cluster) ;;;
              GetSites_range t rest out
        | Ok rc =>
            denied <- do_CheckAccess t (GetName cluster) rc ;;
            match denied with
            | Some err =>
                if negb (IsAccessDenied err) then ret (Err (Wrap err))
                else GetSites_range t rest out
            | None => GetSites_range t rest (out ++ [cluster])
            end
        end
  end.

(** [func (t *TunnelWithRoles) GetSites() ([]RemoteSite, error)] *)
Definition GetSites (t : TunnelWithRoles) : M (result (list RemoteSite)) :=
  r <- do_tunnel_GetSites t ;;
  match r with
  | Err err => ret (Err (Wrap err))
  | Ok clusters => GetSites_range t clusters []
  end.

Section GetSite.
(** [utils.OpaqueAccessDenied] lives in [lib/utils]; [GetSite] is
    stated for whatever that function is. *)
Variable OpaqueAccessDenied : error -> error.

(** [func (t *TunnelWithRoles) GetSite(clusterName string) (RemoteSite, error)] *)
Definition GetSite (t : TunnelWithRoles) (clusterName : string) : M (result RemoteSite) :=
  r <- do_tunnel_GetSite t clusterName ;;
  match r with
  | Err err => ret (Err (Wrap err))
  | Ok cluster =>
      if String.eqb (localCluster t) (GetName cluster) then ret (Ok cluster)
      else
        r <- do_GetRemoteCluster t clusterName ;;
        match r with
        | Err err => ret (Err (Wrap err))
        | Ok rc =>
            denied <- do_CheckAccess t (GetName cluster) rc ;;
            match denied with
            | Some err => ret (Err (OpaqueAccessDenied err))
            | None => ret (Ok cluster)
            end
        end
  end.
End GetSite.

(** Modelled from the spec: [utils.OpaqueAccessDenied] is not among the
    sources.  The specification says of it that an access denial "is
    returned as an opaque access-denied error", the underlying decision
    detail being obscured; any other error is passed on. *)
Definition OpaqueAccessDenied_spec (err : error) : error :=
  if IsAccessDenied err then New AccessDenied "access denied" else Wrap err.

(** *** What the filtering rules decide for one site *)

Inductive verdict :=
| Include
| Skip
| Abort (e : error).

(** The decision for [cluster], read off the collaborators. *)
Definition decide_site (t : TunnelWithRoles) (cluster : RemoteSite) : verdict :=
  if String.eqb (localCluster t) (GetName cluster) then Include
  else match GetRemoteCluster (access t) (GetName cluster) with
       | Err err => if IsNotFound err then Skip else Abort err
       | Ok rc =>
           match CheckAccessToRemoteCluster (accessChecker t) rc with
           | None => Include
           | Some err => if IsAccessDenied err then Skip else Abort err
           end
       end.

Definition included (t : TunnelWithRoles) (cluster : RemoteSite) : bool :=
  match decide_site t cluster with Include => true | _ => false end.

(** A site that is not the local cluster and whose resource lookup fails
    with something other than not-found. *)
Definition lookup_fails_hard (t : TunnelWithRoles) (cluster : RemoteSite) : bool :=
  negb (String.eqb (localCluster t) (GetName cluster)) &&
  match GetRemoteCluster (access t) (GetName cluster) with
  | Err err => negb (IsNotFound err)
  | Ok _ => false
  end.

(** A site that is not the local cluster, whose resource is found and
    whose access check fails with something other than access-denied. *)
Definition check_fails_hard (t : TunnelWithRoles) (cluster : RemoteSite) : bool :=
  negb (String.eqb (localCluster t) (GetName cluster)) &&
  match GetRemoteCluster (access t) (GetName cluster) with
  | Err _ => false
  | Ok rc =>
      match CheckAccessToRemoteCluster (accessChecker t) rc with
      | Some err => negb (IsAccessDenied err)
      | None => false
      end
  end.

(** Events that are a resource lookup for, or an access check made for,
    the site called [name]. *)
Definition concerns (name : string) (ev : Event) : bool :=
  match ev with
  | CallGetRemoteCluster n _ => String.eqb n name
  | CallCheckAccess n _ _ => String.eqb n name
  | _ => false
  end.

(** The error of the first site, in list order, on which the rules
    abort. *)
Fixpoint first_abort (t : TunnelWithRoles) (clusters : list RemoteSite) : option error :=
  match clusters with
  | [] => None
  | cluster :: rest =>
      match decide_site t cluster with
      | Abort e => Some e
      | _ => first_abort t rest
      end
  end.

(** The same tunnel with another underlying site list. *)
Definition with_sites (t : TunnelWithRoles) (clusters : list RemoteSite) : TunnelWithRoles :=
  {| tunnel := {| tunnel_GetSites := Ok clusters;
                  tunnel_GetSite := tunnel_GetSite (tunnel t) |};
     localCluster := localCluster t;
     accessChecker := accessChecker t;
     access := access t |}.

End Reversetunnelclient.

(** ** [lib/auth/authclient]: connecting to the auth service *)

Module Authclient.
Import Trace.

(** Values of other packages that [Connect] only passes on. *)
Definition Context := nat.
Definition Logger := nat.
Definition CertPool := nat.
Definition breaker_Config := nat.
Definition PromptConstructor := nat.
Definition Duration := Z.

(** [utils.NetAddr] *)
Record NetAddr := { Addr : string; AddrNetwork : string; Path : string }.

(** [*tls.Config]; [RootCAs] is itself a pointer. *)
Record tls_Config := { RootCAs : option CertPool; ServerName : string }.

(** [*ssh.ClientConfig] *)
Record ssh_ClientConfig := { User : string }.

(** [Config]: pointer and interface fields may be nil ([None]). *)
Record Config := {
  TLS : option tls_Config;
  SSH : option ssh_ClientConfig;
  AuthServers : list NetAddr;
  Log : option Logger;
  CircuitBreakerConfig : breaker_Config;
  DialTimeout : Duration;
  MFAPromptConstructor : option PromptConstructor;
  Insecure : bool }.

(** Handles of the objects made on the way. *)
Definition Client := nat.
Definition Resolver := nat.
Definition TunnelAuthDialer := nat.

(** [apiclient.Credentials], as made by [apiclient.LoadTLS]. *)
Inductive Credentials :=
| LoadTLS (tlsConfig : option tls_Config).

(** The fields of [apiclient.Config] that [Connect] sets; a field that a
    literal leaves out has its zero value. *)
Record apiclient_Config := {
  api_Addrs : list string;
  api_Dialer : option TunnelAuthDialer;
  api_Credentials : list Credentials;
  api_CircuitBreakerConfig : breaker_Config;
  api_InsecureAddressDiscovery : bool;
  api_DialTimeout : Duration;
  api_MFAPromptConstructor : option PromptConstructor }.

(** [webclient.Config] *)
Record webclient_Config := {
  web_Context : Context;
  web_ProxyAddr : string;
  web_Insecure : bool;
  web_Timeout : Duration }.

(** [reversetunnelclient.TunnelAuthDialerConfig] *)
Record TunnelAuthDialerConfig := {
  dialer_Resolver : Resolver;
  dialer_ClientConfig : option ssh_ClientConfig;
  dialer_Log : option Logger;
  dialer_InsecureSkipTLSVerify : bool;
  dialer_ClusterCAs : option CertPool }.

(** Everything [Connect] does to the outside, with the answers. *)
Inductive Event :=
| Debugf (log : Logger) (format : string) (arg : list NetAddr)
| NewClient (c : apiclient_Config) (r : result Client)
| Ping (ctx : Context) (client : Client) (r : option error)
| Close (client : Client)
| WebClientResolver (c : webclient_Config) (r : Resolver)
| CachingResolver (ctx : Context) (inner : Resolver) (r : result Resolver)
| NewTunnelAuthDialer (c : TunnelAuthDialerConfig) (r : result TunnelAuthDialer).

(** The packages [Connect] calls into.  The two address helpers of
    [lib/utils] are functions of their argument; the others answer as a
    function of everything that happened so far (the log, newest first)
    and of their arguments. *)
Record Env := {
  NetAddr_String : NetAddr -> string;
  NetAddrsToStrings : list NetAddr -> list string;
  auth_NewClient : list Event -> apiclient_Config -> result Client;
  client_Ping : list Event -> Context -> Client -> option error;
  new_WebClientResolver : list Event -> webclient_Config -> Resolver;
  new_CachingResolver : list Event -> Context -> Resolver -> result Resolver;
  new_TunnelAuthDialer : list Event -> TunnelAuthDialerConfig -> result TunnelAuthDialer }.

(** The line [cfg.Log.Debugf("Connecting to: %v.", cfg.AuthServers)]. *)
Definition Connecting (cfg : Config) (log : Logger) : Event :=
  Debugf log "Connecting to: %v." (AuthServers cfg).

Section Connect.
Variable env : Env.
Variable ctx : Context.

(** The [apiclient.Config] literal of the direct path. *)
Definition directConfig (cfg : Config) : apiclient_Config :=
  {| api_Addrs := NetAddrsToStrings env (AuthServers cfg);
     api_Dialer := None;
     api_Credentials := [LoadTLS (TLS cfg)];
     api_CircuitBreakerConfig := CircuitBreakerConfig cfg;
     api_InsecureAddressDiscovery := Insecure cfg;
     api_DialTimeout := DialTimeout cfg;
     api_MFAPromptConstructor := MFAPromptConstructor cfg |}.

(** The [apiclient.Config] literal of the tunnel path. *)
Definition tunnelConfig (cfg : Config) (dialer : TunnelAuthDialer) : apiclient_Config :=
  {| api_Addrs := [];
     api_Dialer := Some dialer;
     api_Credentials := [LoadTLS (TLS cfg)];
     api_CircuitBreakerConfig := 0;
     api_InsecureAddressDiscovery := false;
     api_DialTimeout := 0%Z;
     api_MFAPromptConstructor := MFAPromptConstructor cfg |}.

(** [connectViaAuthDirect(ctx, cfg)], returning a client or an error *)
Definition connectViaAuthDirect (cfg : Config) : M (result Client) :=
  r <- call (fun h => auth_NewClient env h (directConfig cfg))
            (NewClient (directConfig cfg)) ;;
  match r with
  | Err err => ret (Err (Wrap err))
  | Ok directClient =>
      pong <- call (fun h => client_Ping env h ctx directClient)
                   (Ping ctx directClient) ;;
      match pong with
      | Some err =>
          emit (Close directClient) ;;;
          ret (Err (Wrap err))
      | None => ret (Ok directClient)
      end
  end.

(** [connectViaProxyTunnel(ctx, cfg)], returning a client or an error *)
Definition connectViaProxyTunnel (cfg : Config) : M (result Client) :=
  match AuthServers cfg with
  | [] => raise (IndexOutOfRange 0 0)
  | proxy :: _ =>
      let webConfig :=
        {| web_Context := ctx;
           web_ProxyAddr := NetAddr_String env proxy;
           web_Insecure := Insecure cfg;
           web_Timeout := DialTimeout cfg |} in
      resolver <- call (fun h => new_WebClientResolver env h webConfig)
                       (WebClientResolver webConfig) ;;
      r <- call (fun h => new_CachingResolver env h ctx resolver)
                (CachingResolver ctx resolver) ;;
      match r with
      | Err err => ret (Err (Wrap err))
      | Ok resolver =>
          match TLS cfg with
          | None => raise (NilDereference "cfg.TLS")
          | Some tlsConfig =>
              let dialerConfig :=
                {| dialer_Resolver := resolver;
                   dialer_ClientConfig := SSH cfg;
                   dialer_Log := Log cfg;
                   dialer_InsecureSkipTLSVerify := Insecure cfg;
                   dialer_ClusterCAs := RootCAs tlsConfig |} in
              r <- call (fun h => new_TunnelAuthDialer env h dialerConfig)
                        (NewTunnelAuthDialer dialerConfig) ;;
              match r with
              | Err err => ret (Err (Wrap err))
              | Ok dialer =>
                  r <- call (fun h => auth_NewClient env h (tunnelConfig cfg dialer))
                            (NewClient (tunnelConfig cfg dialer)) ;;
                  match r with
                  | Err err => ret (Err (Wrap err))
                  | Ok tunnelClient =>
                      pong <- call (fun h => client_Ping env h ctx tunnelClient)
                                   (Ping ctx tunnelClient) ;;
                      match pong with
                      | Some err =>
                          emit (Close tunnelClient) ;;;
                          ret (Err (Wrap err))
                      | None => ret (Ok tunnelClient)
                      end
                  end
              end
          end
      end
  end.

Definition directErr (err : error) : error :=
  WrapMessage err "failed direct dial to auth server: %v" [err].

Definition proxyTunnelErr (err : error) : error :=
  WrapMessage err "failed dial to auth server through reverse tunnel: %v" [err].

(** [Connect(ctx, cfg)], returning a client or an error *)
Definition Connect (cfg : Config) : M (result Client) :=
  match Log cfg with
  | None => raise (NilDereference "cfg.Log")
  | Some log =>
      emit (Connecting cfg log) ;;;
      r <- connectViaAuthDirect cfg ;;
      match r with
      | Ok directClient => ret (Ok directClient)
      | Err err =>
          match SSH cfg with
          | None => ret (Err (Wrap (directErr err)))
          | Some _ =>
              r <- connectViaProxyTunnel cfg ;;
              match r with
              | Ok proxyTunnelClient => ret (Ok proxyTunnelClient)
              | Err err' =>
                  ret (Err (NewAggregate [directErr err; proxyTunnelErr err']))
              end
          end
      end
  end.
End Connect.

(** *** Reading the log *)

Fixpoint remove_first (c : Client) (l : list Client) : list Client :=
  match l with
  | [] => []
  | x :: l' => if Nat.eqb x c then l' else x :: remove_first c l'
  end.

(** The clients that were made and not closed, newest first. *)
Fixpoint open_clients (h : list Event) : list Client :=
  match h with
  | [] => []
  | NewClient _ (Ok c) :: h' => c :: open_clients h'
  | Close c :: h' => remove_first c (open_clients h')
  | _ :: h' => open_clients h'
  end.

(** Events that only the tunnel path produces: making a resolver or a
    tunnel dialer, and making a client that dials through one. *)
Definition tunnel_event (ev : Event) : bool :=
  match ev with
  | WebClientResolver _ _ | CachingResolver _ _ _ | NewTunnelAuthDialer _ _ => true
  | NewClient c _ => match api_Dialer c with Some _ => true | None => false end
  | _ => false
  end.

(** The client a failed ping was sent to. *)
Definition failed_ping (ev : Event) : option Client :=
  match ev with
  | Ping _ c (Some _) => Some c
  | _ => None
  end.

(** In a stretch of log (newest first, [newer] being the event that
    follows it), every failed ping is directly followed by the closing
    of the client that was pinged. *)
Fixpoint failed_pings_closed_after (newer : option Event) (new : list Event) : bool :=
  match new with
  | [] => true
  | ev :: older =>
      match failed_ping ev with
      | Some c => match newer with
                  | Some (Close c') => Nat.eqb c' c
                  | _ => false
                  end
      | None => true
      end && failed_pings_closed_after (Some ev) older
  end.

Definition failed_pings_closed (new : list Event) : bool :=
  failed_pings_closed_after None new.

(** What an attempt that ended with [r] and added [new] to the log owes:
    failed pings were closed at once; a client that is returned was made
    by this attempt and answered the ping that is the last thing that
    happened, and it is the one client the attempt leaves open; an
    attempt that returns no client leaves no client open. *)
Definition attempt_ok (ctx : Context) (r : outcome (result Client)) (new : list Event) : Prop :=
  failed_pings_closed new = true /\
  match r with
  | Ret (Ok c) =>
      (exists c_config older, new = Ping ctx c None :: NewClient c_config (Ok c) :: older) /\
      (forall h, open_clients (new ++ h) = c :: open_clients h)
  | _ => forall h, open_clients (new ++ h) = open_clients h
  end.

End Authclient.

(** ** [lib/srv]: the expiry a connection monitor enforces *)

Module Srv.

(** [time.Time] as the distance from Go's zero instant; the zero value
    of [time.Time] is [0]. *)
Definition Time := Z.
Definition zeroTime : Time := 0%Z.
Definition IsZero (t : Time) : bool := Z.eqb t 0.
Definition Hour : Z := 3600000000000%Z.

(** The fields of [tlsca.Identity] the computation reads. *)
Record Identity := {
  Expires : Time;
  PreviousIdentityExpires : Time;
  MFAVerified : string }.

Record AccessChecker := { AdjustDisconnectExpiredCert : bool -> bool }.
Record AuthPreference := { GetDisconnectExpiredCert : bool }.

(** [mockChecker] of the test file. *)
Definition mockChecker : AccessChecker :=
  {| AdjustDisconnectExpiredCert := fun disconnect => disconnect |}.

(** [mockAuthPreference] of the test file, for a value of the package
    variable [disconnectExpiredCert]. *)
Definition mockAuthPreference (disconnectExpiredCert : bool) : AuthPreference :=
  {| GetDisconnectExpiredCert := disconnectExpiredCert |}.

Definition mfa_verified (identity : Identity) : bool :=
  negb (String.eqb (MFAVerified identity) "").

(** Modelled from the spec: [GetDisconnectExpiredCertFromIdentity] is
    called by the test file but its body is not among the sources.  The
    specification: the expiry is enforced only if "the access policy's
    expiry-disconnect behavior is enabled for this principal"; "the
    previous identity expiry overrides the current one when the identity
    was MFA-elevated and MFA was in fact verified". *)
Definition GetDisconnectExpiredCertFromIdentity
    (checker : AccessChecker) (authPref : AuthPreference) (identity : Identity) : Time :=
  if negb (AdjustDisconnectExpiredCert checker (GetDisconnectExpiredCert authPref))
  then zeroTime
  else if mfa_verified identity && negb (IsZero (PreviousIdentityExpires identity))
  then PreviousIdentityExpires identity
  else Expires identity.

(** One row of the table of [TestGetDisconnectExpiredCertFromIdentity]. *)
Record test_case := {
  name : string;
  expires : Time;
  previousIdentityExpires : Time;
  mfaVerified : bool;
  disconnectExpiredCert : bool;
  expected : Time }.

Definition test_table (now : Time) : list test_case :=
  let inAnHour := (now + Hour)%Z in
  let unset := zeroTime in
  [ {| name := "mfa overrides expires when set";
       expires := now; previousIdentityExpires := inAnHour;
       mfaVerified := true; disconnectExpiredCert := true;
       expected := inAnHour |};
    {| name := "expires returned when mfa unset";
       expires := now; previousIdentityExpires := unset;
       mfaVerified := false; disconnectExpiredCert := true;
       expected := now |};
    {| name := "unset when disconnectExpiredCert is false";
       expires := now; previousIdentityExpires := inAnHour;
       mfaVerified := true; disconnectExpiredCert := false;
       expected := unset |} ].

(** The body of [t.Run] for one row: build the identity, call, compare. *)
Definition run_test (test : test_case) : bool :=
  let identity :=
    {| Expires := expires test;
       PreviousIdentityExpires := previousIdentityExpires test;
       MFAVerified := if mfaVerified test then "1234" else "" |} in
  let got := GetDisconnectExpiredCertFromIdentity
               mockChecker (mockAuthPreference (disconnectExpiredCert test)) identity in
  Z.eqb (expected test) got.

End Srv.

(** ** [lib/auth/webauthncli]: running credentials on U2F devices *)

Module Webauthncli.
Import Trace.

(** [u2fhid.DeviceInfo]: the path, and the rest of the record. *)
Record DeviceInfo := { Path : string; info_product : nat }.

(** Handles of an opened device and of the token made over it. *)
Definition Device := nat.
Definition Token := nat.

(** [deviceKey{Callback, Path}] *)
Definition deviceKey : Type := nat * string.

(** [ErrAlreadyRegistered] and [errKeyMissingOrNotVerified] of this
    package, [ErrPresenceRequired] and [ErrUnknownKeyHandle] of
    [u2ftoken]; each is made once with [errors.New]. *)
Definition ErrAlreadyRegistered : error := New Plain "already registered".
Definition errKeyMissingOrNotVerified : error :=
  New Plain "key missing or user presence not verified".
Definition ErrPresenceRequired : error := New Plain "u2ftoken: user presence required".
Definition ErrUnknownKeyHandle : error := New Plain "u2ftoken: unknown key handle".

(** The case of the [select] in [RunOnU2FDevices] that fires: the ticker,
    or the context, which then has the given error. *)
Inductive selected :=
| TickerC
| CtxDone (ctxErr : error).

Inductive Event :=
| NewTicker
| TickerStop
| U2fDevices (r : result (list DeviceInfo))
| U2fOpen (info : DeviceInfo) (r : result Device)
| U2fNewToken (dev : Device) (token : Token)
| RunCredential (i : nat) (info : DeviceInfo) (token : Token) (r : option error)
| Debug (err : error)
| Select (r : selected).

(** What the package runs against: [errors.Is] and [err.Error()] of the Go
    library, the three package variables [u2fDevices], [u2fOpen] and
    [u2fNewToken], and the outcome of the [select]; the devices and the
    select answer as a function of everything that happened so far. *)
Record Env := {
  errors_Is : error -> error -> bool;
  Error_text : error -> string;
  u2fDevices : list Event -> result (list DeviceInfo);
  u2fOpen : list Event -> DeviceInfo -> result Device;
  u2fNewToken : list Event -> Device -> Token;
  await : list Event -> selected }.

(** A callback [func(Token) error]; its answer may depend on everything
    that happened so far (the user touches a key or not). *)
Definition Credential : Type := list Event -> Token -> option error.

(** [removedDevices[key]]: a key that is not in the map reads [false]. *)
Definition removed_get (removedDevices : gmap deviceKey bool) (key : deviceKey) : bool :=
  default false (removedDevices !! key).

(** [strings.Contains] *)
Definition strings_Contains (s substr : string) : bool :=
  match String.index 0 substr s with
  | Some _ => true
  | None => false
  end.

(** Where the two loops of [runOnU2FDevicesOnce] stand: the function has
    returned nil, or the loops go on with the map and the swallowed
    errors as they are now. *)
Inductive loop_state :=
| Returned (removedDevices : gmap deviceKey bool)
| Running (removedDevices : gmap deviceKey bool) (swallowed : list error).

Section Once.
Variable env : Env.

(** The loop [for i, fn := range runCredentials] for one device; [i] is
    the index of the first callback of [runCredentials]. *)
Fixpoint range_runCredentials (info : DeviceInfo) (token : Token) (i : nat)
    (runCredentials : list Credential)
    (removedDevices : gmap deviceKey bool) (swallowed : list error) : M loop_state :=
  match runCredentials with
  | [] => ret (Running removedDevices swallowed)
  | fn :: rest =>
      let key : deviceKey := (i, Path info) in
      if negb (String.eqb (Path info) "") && removed_get removedDevices key then
        range_runCredentials info token (S i) rest removedDevices swallowed
      else
        r <- call (fun h => fn h token) (RunCredential i info token) ;;
        match r with
        | None => ret (Returned removedDevices)
        | Some err =>
            if errors_Is env err ErrPresenceRequired then
              range_runCredentials info token (S i) rest removedDevices swallowed
            else if errors_Is env err ErrUnknownKeyHandle
                    || errors_Is env err ErrAlreadyRegistered then
              range_runCredentials info token (S i) rest
                (<[key := true]> removedDevices) swallowed
            else
              range_runCredentials info token (S i) rest removedDevices (swallowed ++ [err])
        end
  end.

(** The loop [for _, info := range infos]. *)
Fixpoint range_infos (infos : list DeviceInfo) (runCredentials : list Credential)
    (removedDevices : gmap deviceKey bool) (swallowed : list error) : M loop_state :=
  match infos with
  | [] => ret (Running removedDevices swallowed)
  | info :: rest =>
      r <- call (fun h => u2fOpen env h info) (U2fOpen info) ;;
      match r with
      | Err err => range_infos rest runCredentials removedDevices (swallowed ++ [err])
      | Ok dev =>
          token <- call (fun h => u2fNewToken env h dev) (U2fNewToken dev) ;;
          s <- range_runCredentials info token 0 runCredentials removedDevices swallowed ;;
          match s with
          | Returned removedDevices' => ret (Returned removedDevices')
          | Running removedDevices' swallowed' =>
              range_infos rest runCredentials removedDevices' swallowed'
          end
      end
  end.

(** [runOnU2FDevicesOnce(removedDevices, runCredentials)]: the error it
    returns ([None] is nil) and the map as the call leaves it. *)
Definition runOnU2FDevicesOnce (removedDevices : gmap deviceKey bool)
    (runCredentials : list Credential) : M (option error * gmap deviceKey bool) :=
  r <- call (u2fDevices env) U2fDevices ;;
  match r with
  | Err err => ret (Some (Wrap err), removedDevices)
  | Ok infos =>
      s <- range_infos infos runCredentials removedDevices [] ;;
      match s with
      | Returned removedDevices' => ret (None, removedDevices')
      | Running removedDevices' swallowed =>
          match swallowed with
          | [] => ret (Some errKeyMissingOrNotVerified, removedDevices')
          | _ :: _ => ret (Some (NewAggregate swallowed), removedDevices')
          end
      end
  end.

(** The [for] loop of [RunOnU2FDevices], run for at most [rounds] rounds;
    [None] when the loop has not returned by then. *)
Fixpoint poll (rounds : nat) (runCredentials : list Credential)
    (removedDevices : gmap deviceKey bool) : M (option (option error)) :=
  match rounds with
  | O => ret None
  | S rounds' =>
      once <- runOnU2FDevicesOnce removedDevices runCredentials ;;
      match fst once with
      | None => ret (Some None)
      | Some err =>
          (if errors_Is env err errKeyMissingOrNotVerified then ret tt
           else
             let errMsg := Error_text env err in
             if negb (strings_Contains errMsg "hid: privilege violation")
                && negb (strings_Contains errMsg "hid: not permitted")
             then emit (Debug err)
             else ret tt) ;;;
          fired <- call (await env) Select ;;
          match fired with
          | TickerC => poll rounds' runCredentials (snd once)
          | CtxDone ctxErr => ret (Some (Some (Wrap ctxErr)))
          end
      end
  end.

(** [RunOnU2FDevices(ctx, runCredentials...)], its loop bounded by
    [rounds]: the ticker is made, the loop runs on a fresh map, and the
    deferred [ticker.Stop()] runs when the function returns. *)
Definition RunOnU2FDevices (rounds : nat) (runCredentials : list Credential)
    : M (option (option error)) :=
  emit NewTicker ;;;
  r <- poll rounds runCredentials ∅ ;;
  match r with
  | None => ret None
  | Some err => emit TickerStop ;;; ret (Some err)
  end.
End Once.

(** *** Reading the log *)

(** How the [switch] of the inner loop treats a callback's error. *)
Definition presence_required (env : Env) (err : error) : bool :=
  errors_Is env err ErrPresenceRequired.

Definition removes (env : Env) (err : error) : bool :=
  negb (errors_Is env err ErrPresenceRequired) &&
  (errors_Is env err ErrUnknownKeyHandle || errors_Is env err ErrAlreadyRegistered).

Definition swallows (env : Env) (err : error) : bool :=
  negb (errors_Is env err ErrPresenceRequired) &&
  negb (errors_Is env err ErrUnknownKeyHandle || errors_Is env err ErrAlreadyRegistered).

(** The key of a callback run that ended in a removal. *)
Definition removal (env : Env) (ev : Event) : option deviceKey :=
  match ev with
  | RunCredential i info _ (Some err) =>
      if removes env err then Some (i, Path info) else None
  | _ => None
  end.

(** [ev] is a run of callback [fst key] on a device with path [snd key]. *)
Definition asks (key : deviceKey) (ev : Event) : bool :=
  match ev with
  | RunCredential i info _ _ => Nat.eqb i (fst key) && String.eqb (Path info) (snd key)
  | _ => false
  end.

(** A callback run that returned nil. *)
Definition succeeded (ev : Event) : bool :=
  match ev with
  | RunCredential _ _ _ None => true
  | _ => false
  end.

(** The errors a stretch of log (newest first) has swallowed, oldest
    first: failed opens, and callback errors that are neither a wait for
    the user nor a removal. *)
Fixpoint swallowed_of (env : Env) (new : list Event) : list error :=
  match new with
  | [] => []
  | ev :: older =>
      swallowed_of env older ++
      match ev with
      | U2fOpen _ (Err err) => [err]
      | RunCredential _ _ _ (Some err) => if swallows env err then [err] else []
      | _ => []
      end
  end.

(** In a stretch of log, once a callback run on a device with a path
    ended in a removal, that callback is not run again on that path. *)
Definition never_asked_again (env : Env) (new : list Event) : Prop :=
  forall newer ev older key,
    new = newer ++ ev :: older ->
    removal env ev = Some key ->
    snd key <> "" ->
    Forall (fun ev' => asks key ev' = false) newer.

(** The map a loop state carries. *)
Definition state_map (s : loop_state) : gmap deviceKey bool :=
  match s with
  | Returned removedDevices => removedDevices
  | Running removedDevices _ => removedDevices
  end.

(** Every removal of a stretch of log reads [true] in the map. *)
Definition marked (env : Env) (removedDevices : gmap deviceKey bool)
    (new : list Event) : Prop :=
  forall ev key, In ev new -> removal env ev = Some key ->
    removed_get removedDevices key = true.

(** What a stretch [new] of the loops of [runOnU2FDevicesOnce] that
    started with the map [removedDevices] and the errors [swallowed] and
    stands at [s] has kept: the map has only grown, and only by the
    removals of the stretch, all of which it holds; no key that was
    removed at the start or in the stretch was asked afterwards; the
    swallowed errors are those of the start followed by those of the
    stretch; no callback succeeded, unless the function has returned, and
    then the success is the newest event and the only one. *)
Definition loop_facts (env : Env) (removedDevices : gmap deviceKey bool)
    (swallowed : list error) (s : loop_state) (new : list Event) : Prop :=
  (forall key, removed_get removedDevices key = true ->
     removed_get (state_map s) key = true) /\
  (forall key, removed_get (state_map s) key = true ->
     removed_get removedDevices key = true \/
     exists ev, In ev new /\ removal env ev = Some key) /\
  marked env (state_map s) new /\
  (forall key, removed_get removedDevices key = true -> snd key <> "" ->
     Forall (fun ev => asks key ev = false) new) /\
  never_asked_again env new /\
  match s with
  | Running _ swallowed' =>
      swallowed' = swallowed ++ swallowed_of env new /\
      Forall (fun ev => succeeded ev = false) new
  | Returned _ =>
      exists ev older, new = ev :: older /\ succeeded ev = true /\
        Forall (fun ev => succeeded ev = false) older
  end.

(** What [runOnU2FDevicesOnce] returns when the loops end at [s]. *)
Definition once_result (s : loop_state) : option error * gmap deviceKey bool :=
  match s with
  | Returned removedDevices => (None, removedDevices)
  | Running removedDevices [] => (Some errKeyMissingOrNotVerified, removedDevices)
  | Running removedDevices swallowed => (Some (NewAggregate swallowed), removedDevices)
  end.

(** No callback of the list ever returns nil. *)
Definition never_succeed (runCredentials : list Credential) : Prop :=
  Forall (fun fn : Credential => forall h token, fn h token <> None) runCredentials.

(** How a bounded run of the polling loop ended, given the newest events:
    still polling, returned nil right after a callback succeeded, or
    returned the context's error right after the [select] saw the context
    done. *)
Definition poll_end (r : option (option error)) (new : list Event) : Prop :=
  match r with
  | None => True
  | Some None => exists ev older, new = ev :: older /\ succeeded ev = true
  | Some (Some err) =>
      exists ctxErr older, new = Select (CtxDone ctxErr) :: older /\ err = Wrap ctxErr
  end.

End Webauthncli.

(** ** Reading the logs of the dialer and of the tunnel *)

Module AuthclientLog.
Import Authclient.

(** A client made by the direct path: it has addresses and no dialer. *)
Definition direct_client (ev : Event) : bool :=
  match ev with
  | NewClient c _ => match api_Dialer c with None => true | Some _ => false end
  | _ => false
  end.

(** A client made by the tunnel path: it dials through a tunnel dialer. *)
Definition tunnel_client (ev : Event) : bool :=
  match ev with
  | NewClient c _ => match api_Dialer c with None => false | Some _ => true end
  | _ => false
  end.

Definition is_Ping (ev : Event) : bool :=
  match ev with
  | Ping _ _ _ => true
  | _ => false
  end.

(** How many events of a stretch of log are of a kind. *)
Definition count (kind : Event -> bool) (new : list Event) : nat :=
  length (List.filter kind new).

(** The same configuration with another address list. *)
Definition with_AuthServers (cfg : Config) (addrs : list NetAddr) : Config :=
  {| TLS := TLS cfg; SSH := SSH cfg; AuthServers := addrs; Log := Log cfg;
     CircuitBreakerConfig := CircuitBreakerConfig cfg; DialTimeout := DialTimeout cfg;
     MFAPromptConstructor := MFAPromptConstructor cfg; Insecure := Insecure cfg |}.

(** A configuration with SSH credentials and an address but without a
    TLS configuration. *)
Definition cfg_no_tls : Config :=
  {| TLS := None; SSH := Some {| User := "node" |};
     AuthServers := [{| Addr := "proxy.example.com:3080"; AddrNetwork := "tcp"; Path := "" |}];
     Log := Some 0; CircuitBreakerConfig := 0; DialTimeout := 30%Z;
     MFAPromptConstructor := None; Insecure := false |}.

End AuthclientLog.

Module TunnelLog.
Import Reversetunnelclient.

Definition is_check (ev : Event) : bool :=
  match ev with
  | CallCheckAccess _ _ _ => true
  | _ => false
  end.

(** A log (newest first) in which every access check comes directly
    after a successful lookup for the same site name and is made on the
    very resource that lookup returned. *)
Inductive checks_follow_lookups : list Event -> Prop :=
| cfl_nil : checks_follow_lookups []
| cfl_check site rc r older :
    checks_follow_lookups (CallGetRemoteCluster site (Ok rc) :: older) ->
    checks_follow_lookups
      (CallCheckAccess site rc r :: CallGetRemoteCluster site (Ok rc) :: older)
| cfl_other ev older :
    is_check ev = false ->
    checks_follow_lookups older ->
    checks_follow_lookups (ev :: older).

End TunnelLog.

(** ** Concrete tunnels, stores and checkers *)

Module Scenario.
Import Trace Reversetunnelclient.

Definition root : RemoteSite := {| GetName := "root"; site_conn := 0 |}.
Definition leaf : RemoteSite := {| GetName := "leaf"; site_conn := 1 |}.
Definition edge : RemoteSite := {| GetName := "edge"; site_conn := 2 |}.

Definition leaf_rc : RemoteCluster := {| rc_name := "leaf"; rc_labels := [] |}.

(** A tunnel that reports the local cluster [root] and two remote sites. *)
Definition three_sites : Tunnel :=
  {| tunnel_GetSites := Ok [root; leaf; edge];
     tunnel_GetSite := fun clusterName =>
       if String.eqb clusterName "root" then Ok root
       else if String.eqb clusterName "leaf" then Ok leaf
       else if String.eqb clusterName "edge" then Ok edge
       else Err (New NotFound "no such site") |}.

(** A store that has a resource for [leaf] only: [edge] is dangling. *)
Definition store_leaf_only : ClusterGetter :=
  {| GetRemoteCluster := fun clusterName =>
       if String.eqb clusterName "leaf" then Ok leaf_rc
       else Err (New NotFound "remote cluster is not found") |}.

(** A store whose backend cannot be reached. *)
Definition store_unreachable : ClusterGetter :=
  {| GetRemoteCluster := fun _ => Err (New ConnectionProblem "backend unavailable") |}.

Definition grant_all : AccessChecker :=
  {| CheckAccessToRemoteCluster := fun _ => None |}.

Definition deny_all : AccessChecker :=
  {| CheckAccessToRemoteCluster := fun _ =>
       Some (New AccessDenied "access to cluster denied by role set") |}.

(** A checker whose policy evaluation itself breaks. *)
Definition checker_broken : AccessChecker :=
  {| CheckAccessToRemoteCluster := fun _ =>
       Some (New BadParameter "role set could not be evaluated") |}.

Definition t_granted : TunnelWithRoles :=
  NewTunnelWithRoles three_sites "root" grant_all store_leaf_only.
Definition t_denied : TunnelWithRoles :=
  NewTunnelWithRoles three_sites "root" deny_all store_leaf_only.
Definition t_unreachable : TunnelWithRoles :=
  NewTunnelWithRoles three_sites "root" grant_all store_unreachable.
Definition t_broken : TunnelWithRoles :=
  NewTunnelWithRoles three_sites "root" checker_broken store_leaf_only.

End Scenario.

(** ** Concrete configurations and networks *)

Module DialScenario.
Import Trace Authclient.

Definition proxy : NetAddr :=
  {| Addr := "proxy.example.com:3080"; AddrNetwork := "tcp"; Path := "" |}.

Definition tlsConfig : tls_Config := {| RootCAs := Some 1; ServerName := "teleport" |}.
Definition sshConfig : ssh_ClientConfig := {| User := "node" |}.

Definition cfg_ssh : Config :=
  {| TLS := Some tlsConfig; SSH := Some sshConfig; AuthServers := [proxy];
     Log := Some 0; CircuitBreakerConfig := 0; DialTimeout := 30%Z;
     MFAPromptConstructor := None; Insecure := false |}.

Definition cfg_no_ssh : Config :=
  {| TLS := Some tlsConfig; SSH := None; AuthServers := [proxy];
     Log := Some 0; CircuitBreakerConfig := 0; DialTimeout := 30%Z;
     MFAPromptConstructor := None; Insecure := false |}.

Definition cfg_no_addrs : Config :=
  {| TLS := Some tlsConfig; SSH := Some sshConfig; AuthServers := [];
     Log := Some 0; CircuitBreakerConfig := 0; DialTimeout := 30%Z;
     MFAPromptConstructor := None; Insecure := false |}.

Definition refused : error := New ConnectionProblem "dial tcp: connection refused".
Definition no_tunnel : error := New ConnectionProblem "ssh: handshake failed".

(** Neither path can make a client. *)
Definition env_down : Env :=
  {| NetAddr_String := Addr;
     NetAddrsToStrings := List.map Addr;
     auth_NewClient := fun _ c =>
       match api_Dialer c with None => Err refused | Some _ => Err no_tunnel end;
     client_Ping := fun _ _ _ => None;
     new_WebClientResolver := fun _ _ => 1;
     new_CachingResolver := fun _ _ _ => Ok 2;
     new_TunnelAuthDialer := fun _ _ => Ok 3 |}.

(** The auth server answers on the direct path. *)
Definition env_direct_up : Env :=
  {| NetAddr_String := Addr;
     NetAddrsToStrings := List.map Addr;
     auth_NewClient := fun _ c =>
       match api_Dialer c with None => Ok 7 | Some _ => Err no_tunnel end;
     client_Ping := fun _ _ _ => None;
     new_WebClientResolver := fun _ _ => 1;
     new_CachingResolver := fun _ _ _ => Ok 2;
     new_TunnelAuthDialer := fun _ _ => Ok 3 |}.

(** Clients can be made on both paths but none answers a ping. *)
Definition env_no_pong : Env :=
  {| NetAddr_String := Addr;
     NetAddrsToStrings := List.map Addr;
     auth_NewClient := fun _ c =>
       match api_Dialer c with None => Ok 7 | Some _ => Ok 8 end;
     client_Ping := fun _ _ _ => Some (New ConnectionProblem "ping: deadline exceeded");
     new_WebClientResolver := fun _ _ => 1;
     new_CachingResolver := fun _ _ _ => Ok 2;
     new_TunnelAuthDialer := fun _ _ => Ok 3 |}.

End DialScenario.

(** ** Concrete devices and callbacks *)

Module U2fScenario.
Import Trace Webauthncli.

(** [errors.Is] on errors made with [errors.New], told apart by their
    text, through the messages trace puts around them. *)
Fixpoint sentinel_Is (err target : error) : bool :=
  match err with
  | New k msg =>
      match target with
      | New k' msg' => Kind_eqb k k' && String.eqb msg msg'
      | _ => false
      end
  | UserMessage err' _ _ => sentinel_Is err' target
  | Aggregate _ => false
  end.

Definition text_of (err : error) : string :=
  match cause err with
  | New _ msg => msg
  | _ => "several errors"
  end.

Definition hidraw0 : DeviceInfo := {| Path := "/dev/hidraw0"; info_product := 1 |}.
Definition hidraw1 : DeviceInfo := {| Path := "/dev/hidraw1"; info_product := 2 |}.

Definition canceled : error := New Plain "context canceled".

(** Two keys are plugged in and open; the context is never done. *)
Definition env_two_keys : Env :=
  {| errors_Is := sentinel_Is;
     Error_text := text_of;
     u2fDevices := fun _ => Ok [hidraw0; hidraw1];
     u2fOpen := fun _ info => Ok (info_product info);
     u2fNewToken := fun _ dev => dev;
     await := fun _ => TickerC |}.

(** The same keys, with a context that is done at the first [select]. *)
Definition env_canceled : Env :=
  {| errors_Is := sentinel_Is;
     Error_text := text_of;
     u2fDevices := fun _ => Ok [hidraw0; hidraw1];
     u2fOpen := fun _ info => Ok (info_product info);
     u2fNewToken := fun _ dev => dev;
     await := fun _ => CtxDone canceled |}.

(** A credential no key knows. *)
Definition unknown_everywhere : Credential := fun _ _ => Some ErrUnknownKeyHandle.

(** A credential the second key holds; the user touches that key once the
    devices have been listed a second time. *)
Definition known_to_second : Credential := fun h token =>
  if Nat.eqb token 2 then
    if Nat.leb 2 (length (List.filter (fun ev => match ev with U2fDevices _ => true | _ => false end) h))
    then None else Some ErrPresenceRequired
  else Some ErrUnknownKeyHandle.

End U2fScenario.

(** * Properties *)

(** ** The authorizing tunnel *)

Section TunnelWithRoles_facts.
Import Trace Reversetunnelclient.
Variable t : TunnelWithRoles.

Lemma decide_site_local cluster :
  localCluster t = GetName cluster -> decide_site t cluster = Include.
Proof.
  intros Hlocal. unfold decide_site.
  rewrite Hlocal, String.eqb_refl. reflexivity.
Qed.

(** The loop, in closed form: it returns the error of the first site on
    which the rules abort, and otherwise [out] followed by the included
    sites in list order. *)
Lemma GetSites_range_result clusters : forall out h,
  fst (GetSites_range t clusters out h) =
  Ret match first_abort t clusters with
      | Some e => Err (Wrap e)
      | None => Ok (out ++ List.filter (included t) clusters)
      end.
Proof.
  induction clusters as [|cluster rest IH]; intros out h; simpl.
  - rewrite app_nil_r. reflexivity.
  - unfold included at 1, decide_site.
    destruct (String.eqb (localCluster t) (GetName cluster)).
    + rewrite IH. destruct (first_abort t rest); [reflexivity|].
      rewrite <- app_assoc. reflexivity.
    + unfold bind, do_GetRemoteCluster, do_CheckAccess, call, emit; simpl.
      destruct (GetRemoteCluster (access t) (GetName cluster)) as [rc|err]; simpl.
      * destruct (CheckAccessToRemoteCluster (accessChecker t) rc) as [err|]; simpl.
        -- destruct (IsAccessDenied err); simpl; [apply IH | reflexivity].
        -- rewrite IH. destruct (first_abort t rest); [reflexivity|].
           rewrite <- app_assoc. reflexivity.
      * destruct (IsNotFound err); simpl; [apply IH | reflexivity].
Qed.

(** What the loop adds to the log: only lookups and checks for sites
    that are not the local cluster (and the warnings). *)
Lemma GetSites_range_log clusters : forall out h,
  exists new, snd (GetSites_range t clusters out h) = new ++ h /\
              Forall (fun ev => concerns (localCluster t) ev = false) new.
Proof.
  induction clusters as [|cluster rest IH]; intros out h; simpl.
  - exists []. split; [reflexivity | constructor].
  - destruct (String.eqb (localCluster t) (GetName cluster)) eqn:Hlocal.
    + apply IH.
    + assert (Hname : String.eqb (GetName cluster) (localCluster t) = false)
        by (rewrite String.eqb_sym; exact Hlocal).
      unfold bind, do_GetRemoteCluster, do_CheckAccess, call, emit; simpl.
      destruct (GetRemoteCluster (access t) (GetName cluster)) as [rc|err]; simpl.
      * destruct (CheckAccessToRemoteCluster (accessChecker t) rc) as [err|] eqn:Hcheck; simpl.
        -- destruct (IsAccessDenied err); simpl.
           ++ destruct (IH out (CallCheckAccess (GetName cluster) rc (Some err)
                                :: CallGetRemoteCluster (GetName cluster) (Ok rc) :: h))
                as (new & Hnew & Hall).
              exists (new ++ [CallCheckAccess (GetName cluster) rc (Some err);
                              CallGetRemoteCluster (GetName cluster) (Ok rc)]).
              split; [rewrite Hnew, <- app_assoc; reflexivity|].
              apply Forall_app; split; [exact Hall|].
              repeat constructor; simpl; exact Hname.
           ++ exists [CallCheckAccess (GetName cluster) rc (Some err);
                      CallGetRemoteCluster (GetName cluster) (Ok rc)].
              split; [reflexivity|]. repeat constructor; simpl; exact Hname.
        -- destruct (IH (out ++ [cluster])
                        (CallCheckAccess (GetName cluster) rc None
                         :: CallGetRemoteCluster (GetName cluster) (Ok rc) :: h))
             as (new & Hnew & Hall).
           exists (new ++ [CallCheckAccess (GetName cluster) rc None;
                           CallGetRemoteCluster (GetName cluster) (Ok rc)]).
           split; [rewrite Hnew, <- app_assoc; reflexivity|].
           apply Forall_app; split; [exact Hall|].
           repeat constructor; simpl; exact Hname.
      * destruct (IsNotFound err); simpl.
        -- destruct (IH out (warn_dangling cluster
                             :: CallGetRemoteCluster (GetName cluster) (Err err) :: h))
             as (new & Hnew & Hall).
           exists (new ++ [warn_dangling cluster;
                           CallGetRemoteCluster (GetName cluster) (Err err)]).
           split; [rewrite Hnew, <- app_assoc; reflexivity|].
           apply Forall_app; split; [exact Hall|].
           repeat constructor; simpl; exact Hname.
        -- exists [CallGetRemoteCluster (GetName cluster) (Err err)].
           split; [reflexivity|]. repeat constructor; simpl; exact Hname.
Qed.

(** [GetSites] in closed form. *)
Lemma GetSites_result h :
  fst (GetSites t h) =
  Ret match tunnel_GetSites (tunnel t) with
      | Err err => Err (Wrap err)
      | Ok clusters =>
          match first_abort t clusters with
          | Some e => Err (Wrap e)
          | None => Ok (List.filter (included t) clusters)
          end
      end.
Proof.
  unfold GetSites, bind, do_tunnel_GetSites, call; simpl.
  destruct (tunnel_GetSites (tunnel t)) as [clusters|err]; [|reflexivity].
  rewrite GetSites_range_result. reflexivity.
Qed.

End TunnelWithRoles_facts.

Section TunnelWithRoles_claims.
Import Trace Reversetunnelclient.

Lemma first_abort_None t clusters :
  first_abort t clusters = None <->
  forall cluster, In cluster clusters ->
    lookup_fails_hard t cluster = false /\ check_fails_hard t cluster = false.
Proof.
  induction clusters as [|c rest IH]; simpl.
  - split; [intros _ ? [] | reflexivity].
  - assert (Hc : match decide_site t c with
                 | Abort _ => lookup_fails_hard t c = true \/ check_fails_hard t c = true
                 | _ => lookup_fails_hard t c = false /\ check_fails_hard t c = false
                 end).
    { unfold decide_site, lookup_fails_hard, check_fails_hard.
      destruct (String.eqb (localCluster t) (GetName c)); simpl; [auto|].
      destruct (GetRemoteCluster (access t) (GetName c)) as [rc|err].
      - destruct (CheckAccessToRemoteCluster (accessChecker t) rc) as [err|]; [|auto].
        destruct (IsAccessDenied err); simpl; auto.
      - destruct (IsNotFound err); simpl; auto. }
    destruct (decide_site t c).
    + rewrite IH. split.
      * intros H x [<-|Hx]; [exact Hc | exact (H x Hx)].
      * intros H x Hx. apply H. right. exact Hx.
    + rewrite IH. split.
      * intros H x [<-|Hx]; [exact Hc | exact (H x Hx)].
      * intros H x Hx. apply H. right. exact Hx.
    + split; [discriminate|].
      intros H. destruct (H c (or_introl eq_refl)) as [Hl Hk].
      destruct Hc as [Hc|Hc]; congruence.
Qed.

Lemma decide_site_Abort t cluster e :
  decide_site t cluster = Abort e ->
  String.eqb (localCluster t) (GetName cluster) = false.
Proof.
  unfold decide_site.
  destruct (String.eqb (localCluster t) (GetName cluster)); [discriminate | reflexivity].
Qed.

Lemma first_abort_Some t clusters e :
  first_abort t clusters = Some e ->
  exists other, In other clusters /\
    String.eqb (localCluster t) (GetName other) = false /\
    decide_site t other = Abort e.
Proof.
  induction clusters as [|c rest IH]; simpl; [discriminate|].
  destruct (decide_site t c) as [| |e'] eqn:Hc.
  - intros H. destruct (IH H) as (other & Hin & Hrest). exists other. auto.
  - intros H. destruct (IH H) as (other & Hin & Hrest). exists other. auto.
  - intros [= <-]. exists c. split; [left; reflexivity|].
    split; [exact (decide_site_Abort t c e' Hc) | exact Hc].
Qed.

Lemma first_abort_skip t pre cluster post :
  decide_site t cluster = Skip ->
  first_abort t (pre ++ cluster :: post) = first_abort t (pre ++ post).
Proof.
  intros Hskip. induction pre as [|c pre IH]; simpl.
  - rewrite Hskip. reflexivity.
  - destruct (decide_site t c); [exact IH | exact IH | reflexivity].
Qed.

Lemma filter_included_skip t pre cluster post :
  decide_site t cluster = Skip ->
  List.filter (included t) (pre ++ cluster :: post) =
  List.filter (included t) (pre ++ post).
Proof.
  intros Hskip. rewrite !List.filter_app. simpl.
  unfold included at 2. rewrite Hskip. reflexivity.
Qed.

Lemma first_abort_with_sites t sites clusters :
  first_abort (with_sites t sites) clusters = first_abort t clusters.
Proof.
  induction clusters as [|c rest IH]; simpl; [reflexivity|].
  rewrite IH. reflexivity.
Qed.

(** Removing a skipped site from the underlying list does not change
    what [GetSites] returns. *)
Lemma GetSites_skip t pre cluster post h :
  decide_site t cluster = Skip ->
  fst (GetSites (with_sites t (pre ++ cluster :: post)) h) =
  fst (GetSites (with_sites t (pre ++ post)) h).
Proof.
  intros Hskip. rewrite !GetSites_result.
  change (tunnel_GetSites (tunnel (with_sites t (pre ++ cluster :: post))))
    with (Ok (pre ++ cluster :: post)).
  change (tunnel_GetSites (tunnel (with_sites t (pre ++ post)))) with (Ok (pre ++ post)).
  cbv beta iota.
  rewrite !first_abort_with_sites.
  change (included (with_sites t (pre ++ cluster :: post))) with (included t).
  change (included (with_sites t (pre ++ post))) with (included t).
  rewrite first_abort_skip, filter_included_skip by exact Hskip.
  reflexivity.
Qed.

Lemma kind_exclusive e :
  IsNotFound e = true -> IsAccessDenied e = false.
Proof.
  unfold IsNotFound, IsAccessDenied.
  induction e as [k msg|e IH format args|errs]; simpl; [|exact IH|reflexivity].
  destruct k; simpl; congruence.
Qed.

(** C1, as amended.  For a site that is not the local cluster: when the
    RemoteCluster lookup fails, [GetSite] returns that lookup error itself
    (wrapped, its class unchanged: a not-found stays a not-found and is
    not an access-denied error); when the access check fails, [GetSite]
    returns [utils.OpaqueAccessDenied] of the checker's error. *)
Theorem GetSite_remote_errors
    (opaque : error -> error) (t : TunnelWithRoles) (clusterName : string)
    (cluster : RemoteSite) (h : list Event) :
  tunnel_GetSite (tunnel t) clusterName = Ok cluster ->
  String.eqb (localCluster t) (GetName cluster) = false ->
  (forall err, GetRemoteCluster (access t) clusterName = Err err ->
     fst (GetSite opaque t clusterName h) = Ret (Err (Wrap err)) /\
     (IsNotFound err = true ->
        IsNotFound (Wrap err) = true /\ IsAccessDenied (Wrap err) = false)) /\
  (forall rc err, GetRemoteCluster (access t) clusterName = Ok rc ->
     CheckAccessToRemoteCluster (accessChecker t) rc = Some err ->
     fst (GetSite opaque t clusterName h) = Ret (Err (opaque err))).
Proof.
  intros Hsite Hremote.
  unfold GetSite, bind, do_tunnel_GetSite, do_GetRemoteCluster, do_CheckAccess, call; simpl.
  rewrite Hsite, Hremote. split.
  - intros err Hlookup. rewrite Hlookup. simpl. split; [reflexivity|].
    intros Hnf. split; [exact Hnf | exact (kind_exclusive err Hnf)].
  - intros rc err Hlookup Hcheck. rewrite Hlookup. simpl. rewrite Hcheck. reflexivity.
Qed.

(** C2, as amended.  [GetSites] returns an error exactly when the
    underlying enumeration fails, or the resource lookup of some site that
    is not the local cluster fails with something other than not-found, or
    the access check of such a site fails with something other than
    access-denied.  A site whose lookup reports not-found, and a site
    whose check is denied, is skipped: the call returns what it returns
    for the list without that site. *)
Theorem GetSites_error_iff (t : TunnelWithRoles) (h : list Event) :
  ((exists e, fst (GetSites t h) = Ret (Err e)) <->
   (exists e, tunnel_GetSites (tunnel t) = Err e) \/
   (exists clusters cluster,
      tunnel_GetSites (tunnel t) = Ok clusters /\ In cluster clusters /\
      (lookup_fails_hard t cluster = true \/ check_fails_hard t cluster = true))) /\
  (forall pre cluster post err,
     String.eqb (localCluster t) (GetName cluster) = false ->
     GetRemoteCluster (access t) (GetName cluster) = Err err ->
     IsNotFound err = true ->
     fst (GetSites (with_sites t (pre ++ cluster :: post)) h) =
     fst (GetSites (with_sites t (pre ++ post)) h)) /\
  (forall pre cluster post rc err,
     String.eqb (localCluster t) (GetName cluster) = false ->
     GetRemoteCluster (access t) (GetName cluster) = Ok rc ->
     CheckAccessToRemoteCluster (accessChecker t) rc = Some err ->
     IsAccessDenied err = true ->
     fst (GetSites (with_sites t (pre ++ cluster :: post)) h) =
     fst (GetSites (with_sites t (pre ++ post)) h)).
Proof.
  split; [|split].
  - rewrite GetSites_result.
    destruct (tunnel_GetSites (tunnel t)) as [clusters|err].
    + destruct (first_abort t clusters) as [e|] eqn:Habort.
      * split; [intros _ | intros _; eexists; reflexivity].
        right. exists clusters.
        destruct (List.existsb (fun c => lookup_fails_hard t c || check_fails_hard t c) clusters)
          eqn:Hex.
        -- apply List.existsb_exists in Hex. destruct Hex as (c & Hin & Hc).
           exists c. apply orb_true_iff in Hc. auto.
        -- exfalso. assert (Hnone : first_abort t clusters = None); [|congruence].
           apply first_abort_None. intros c Hin.
           apply orb_false_iff.
           destruct (lookup_fails_hard t c || check_fails_hard t c) eqn:Hc; [|reflexivity].
           assert (Htrue : List.existsb
                     (fun c => lookup_fails_hard t c || check_fails_hard t c) clusters = true)
             by (apply List.existsb_exists; exists c; auto).
           congruence.
      * split; [intros [e He]; discriminate|].
        intros [[e He]|(clusters' & c & Heq & Hin & Hc)]; [discriminate|].
        injection Heq as <-.
        destruct (proj1 (first_abort_None t clusters) Habort c Hin) as [Hl Hk].
        destruct Hc; congruence.
    + split; [intros _; left; eexists; reflexivity | intros _; eexists; reflexivity].
  - intros pre cluster post err Hremote Hlookup Hnf.
    apply GetSites_skip. unfold decide_site. rewrite Hremote, Hlookup, Hnf. reflexivity.
  - intros pre cluster post rc err Hremote Hlookup Hcheck Hdenied.
    apply GetSites_skip. unfold decide_site.
    rewrite Hremote, Hlookup, Hcheck, Hdenied. reflexivity.
Qed.

(** C3.  A site whose name is the local cluster's is in the list that
    [GetSites] returns (the one way for it not to be returned is that the
    call returns no list at all, because the lookup or the check of a site
    that is not the local cluster failed hard), and it is what [GetSite]
    returns for it; no resource lookup and no access check is made for
    that name, whatever the store holds and whatever the checker would
    decide. *)
Theorem local_site_never_filtered
    (opaque : error -> error) (t : TunnelWithRoles) (h : list Event) :
  (forall clusters cluster,
     tunnel_GetSites (tunnel t) = Ok clusters ->
     In cluster clusters ->
     GetName cluster = localCluster t ->
     match fst (GetSites t h) with
     | Ret (Ok out) => In cluster out
     | Ret (Err e) =>
         exists other, In other clusters /\
           String.eqb (localCluster t) (GetName other) = false /\
           decide_site t other = Abort e
     | Panic _ => False
     end) /\
  (exists new, snd (GetSites t h) = new ++ h /\
     Forall (fun ev => concerns (localCluster t) ev = false) new) /\
  (forall clusterName cluster,
     tunnel_GetSite (tunnel t) clusterName = Ok cluster ->
     GetName cluster = localCluster t ->
     GetSite opaque t clusterName h =
     (Ret (Ok cluster), CallTunnelGetSite clusterName (Ok cluster) :: h)).
Proof.
  split; [|split].
  - intros clusters cluster Hsites Hin Hname.
    rewrite GetSites_result, Hsites.
    destruct (first_abort t clusters) as [e|] eqn:Habort.
    + apply first_abort_Some in Habort. exact Habort.
    + apply List.filter_In. split; [exact Hin|].
      unfold included. rewrite decide_site_local; [reflexivity | symmetry; exact Hname].
  - unfold GetSites, bind, do_tunnel_GetSites, call; simpl.
    destruct (tunnel_GetSites (tunnel t)) as [clusters|err]; simpl.
    + destruct (GetSites_range_log t clusters []
                  (CallTunnelGetSites (Ok clusters) :: h)) as (new & Hnew & Hall).
      exists (new ++ [CallTunnelGetSites (Ok clusters)]).
      split; [rewrite Hnew, <- app_assoc; reflexivity|].
      apply Forall_app; split; [exact Hall | repeat constructor].
    + exists [CallTunnelGetSites (Err err)]. split; [reflexivity | repeat constructor].
  - intros clusterName cluster Hsite Hname.
    unfold GetSite, bind, do_tunnel_GetSite, call; simpl.
    rewrite Hsite, <- Hname, String.eqb_refl. reflexivity.
Qed.

(** C7.  The list [GetSites] returns is the underlying list with the
    excluded sites left out: exactly the sites the filtering rules
    include, each as often and in the order in which the underlying
    tunnel reported it; in particular a subsequence of the underlying
    list. *)
Theorem GetSites_subsequence
    (t : TunnelWithRoles) (h : list Event) (clusters out : list RemoteSite) :
  tunnel_GetSites (tunnel t) = Ok clusters ->
  fst (GetSites t h) = Ret (Ok out) ->
  out = List.filter (included t) clusters /\
  sublist out clusters /\
  (forall cluster, In cluster out <-> In cluster clusters /\ included t cluster = true).
Proof.
  intros Hsites Hres.
  rewrite GetSites_result, Hsites in Hres.
  destruct (first_abort t clusters); [discriminate|].
  injection Hres as <-.
  split; [reflexivity|]. split.
  - clear Hsites. induction clusters as [|c rest IH]; simpl; [constructor|].
    destruct (included t c); [apply sublist_skip | apply sublist_cons]; exact IH.
  - intros cluster. apply List.filter_In.
Qed.

End TunnelWithRoles_claims.

Section TunnelWithRoles_instances.
Import Trace Reversetunnelclient Scenario.

(** C1 fails as stated.  The site [edge] is not the local cluster and the
    lookup of its resource reports not-found; [GetSite] hands that
    not-found error back, which is not an access-denied error, while the
    denied site [leaf] gets the opaque access-denied error: the caller
    tells the two apart. *)
Lemma GetSite_dangling_site_not_access_denied :
  tunnel_GetSite (tunnel t_granted) "edge" = Ok edge /\
  String.eqb (localCluster t_granted) (GetName edge) = false /\
  (exists err, GetRemoteCluster (access t_granted) "edge" = Err err /\
               IsNotFound err = true) /\
  ~ (exists opaque e, fst (GetSite opaque t_granted "edge" []) = Ret (Err e) /\
                      IsAccessDenied e = true) /\
  fst (GetSite OpaqueAccessDenied_spec t_granted "edge" []) <>
  fst (GetSite OpaqueAccessDenied_spec t_denied "leaf" []).
Proof.
  split; [reflexivity|]. split; [reflexivity|]. split.
  - eexists. split; reflexivity.
  - split.
    + intros (opaque & e & Hres & Hdenied). vm_compute in Hres.
      injection Hres as <-. discriminate Hdenied.
    + vm_compute. discriminate.
Qed.

Lemma GetSite_remote_errors_witness :
  (tunnel_GetSite (tunnel t_denied) "leaf" = Ok leaf /\
   String.eqb (localCluster t_denied) (GetName leaf) = false) /\
  fst (GetSite OpaqueAccessDenied_spec t_denied "leaf" []) =
  Ret (Err (New AccessDenied "access denied")).
Proof.
  split; [split; reflexivity|].
  exact (proj2 (GetSite_remote_errors OpaqueAccessDenied_spec t_denied "leaf" leaf []
                  eq_refl eq_refl)
               leaf_rc (New AccessDenied "access to cluster denied by role set")
               eq_refl eq_refl).
Defined.

(** C2 fails as stated.  With a store that cannot be reached [GetSites]
    returns an error although the enumeration succeeded and no access
    check failed (none was even made). *)
Lemma GetSites_errors_on_lookup_failure :
  (exists e, fst (GetSites t_unreachable []) = Ret (Err e)) /\
  ~ ((exists e, tunnel_GetSites (tunnel t_unreachable) = Err e) \/
     (exists clusters cluster,
        tunnel_GetSites (tunnel t_unreachable) = Ok clusters /\
        In cluster clusters /\ check_fails_hard t_unreachable cluster = true)).
Proof.
  split.
  - eexists. vm_compute. reflexivity.
  - intros [[e He]|(clusters & cluster & Hsites & Hin & Hcheck)].
    + discriminate He.
    + injection Hsites as <-.
      destruct Hin as [<-|[<-|[<-|[]]]]; discriminate Hcheck.
Qed.

Lemma GetSites_error_iff_witness :
  (String.eqb (localCluster t_granted) (GetName edge) = false /\
   GetRemoteCluster (access t_granted) (GetName edge) =
     Err (New NotFound "remote cluster is not found") /\
   IsNotFound (New NotFound "remote cluster is not found") = true) /\
  fst (GetSites (with_sites t_granted ([root] ++ edge :: [leaf])) []) =
  fst (GetSites (with_sites t_granted ([root] ++ [leaf])) []).
Proof.
  split; [repeat split|].
  exact (proj1 (proj2 (GetSites_error_iff t_granted []))
               [root] edge [leaf] (New NotFound "remote cluster is not found")
               eq_refl eq_refl eq_refl).
Defined.

Lemma local_site_never_filtered_witness :
  (tunnel_GetSites (tunnel t_denied) = Ok [root; leaf; edge] /\
   In root [root; leaf; edge] /\
   GetName root = localCluster t_denied) /\
  fst (GetSites t_denied []) = Ret (Ok [root]) /\
  In root [root].
Proof.
  split; [repeat split; left; reflexivity|].
  split; [reflexivity|].
  exact (proj1 (local_site_never_filtered OpaqueAccessDenied_spec t_denied [])
               [root; leaf; edge] root
               eq_refl (or_introl eq_refl) eq_refl).
Defined.

Lemma GetSites_subsequence_witness :
  (tunnel_GetSites (tunnel t_granted) = Ok [root; leaf; edge] /\
   fst (GetSites t_granted []) = Ret (Ok [root; leaf])) /\
  [root; leaf] = List.filter (included t_granted) [root; leaf; edge] /\
  sublist [root; leaf] [root; leaf; edge] /\
  (forall cluster, In cluster [root; leaf] <->
     In cluster [root; leaf; edge] /\ included t_granted cluster = true).
Proof.
  split; [split; reflexivity|].
  exact (GetSites_subsequence t_granted [] [root; leaf; edge] [root; leaf]
           eq_refl eq_refl).
Defined.

(** The three ways a remote site can fare, on the sample tunnels. *)
Example GetSites_granted :
  GetSites t_granted [] =
  (Ret (Ok [root; leaf]),
   [ Warningf "Skipping dangling cluster %q, no remote cluster resource found." "edge";
     CallGetRemoteCluster "edge" (Err (New NotFound "remote cluster is not found"));
     CallCheckAccess "leaf" leaf_rc None;
     CallGetRemoteCluster "leaf" (Ok leaf_rc);
     CallTunnelGetSites (Ok [root; leaf; edge]) ]).
Proof. reflexivity. Qed.

Example GetSites_broken_checker :
  fst (GetSites t_broken []) =
  Ret (Err (New BadParameter "role set could not be evaluated")).
Proof. reflexivity. Qed.

End TunnelWithRoles_instances.

(** ** The dialer *)

Section Connect_facts.
Import Trace Authclient.
Variable env : Env.
Variable ctx : Context.

Lemma failed_pings_closed_after_any new :
  failed_pings_closed new = true ->
  forall newer, failed_pings_closed_after newer new = true.
Proof.
  unfold failed_pings_closed. destruct new as [|ev older]; simpl; [reflexivity|].
  destruct (failed_ping ev); simpl; [discriminate | auto].
Qed.

Lemma failed_pings_closed_after_app a : forall newer b,
  failed_pings_closed_after newer a = true ->
  failed_pings_closed b = true ->
  failed_pings_closed_after newer (a ++ b) = true.
Proof.
  induction a as [|ev a IH]; intros newer b Ha Hb; simpl in *.
  - apply failed_pings_closed_after_any. exact Hb.
  - apply andb_true_iff in Ha. destruct Ha as [Hev Ha].
    rewrite Hev. simpl. apply IH; assumption.
Qed.

Lemma failed_pings_closed_app a b :
  failed_pings_closed a = true -> failed_pings_closed b = true ->
  failed_pings_closed (a ++ b) = true.
Proof. apply failed_pings_closed_after_app. Qed.

Ltac frame_log :=
  first [ exists (@nil Event); split; [reflexivity|]
        | eexists [_]; split; [reflexivity|]
        | eexists [_; _]; split; [reflexivity|]
        | eexists [_; _; _]; split; [reflexivity|]
        | eexists [_; _; _; _]; split; [reflexivity|]
        | eexists [_; _; _; _; _]; split; [reflexivity|]
        | eexists [_; _; _; _; _; _]; split; [reflexivity|] ].

Ltac attempt_done :=
  unfold attempt_ok, failed_pings_closed; simpl;
  rewrite ?Nat.eqb_refl;
  repeat split; try reflexivity;
  try (intros; simpl; rewrite ?Nat.eqb_refl; reflexivity);
  try (eexists _, _; reflexivity);
  try (repeat constructor).

(** The direct attempt never panics, touches nothing of the tunnel path
    and meets [attempt_ok]. *)
Lemma connectViaAuthDirect_log cfg h :
  exists new,
    snd (connectViaAuthDirect env ctx cfg h) = new ++ h /\
    attempt_ok ctx (fst (connectViaAuthDirect env ctx cfg h)) new /\
    Forall (fun ev => tunnel_event ev = false) new /\
    (exists r, fst (connectViaAuthDirect env ctx cfg h) = Ret r).
Proof.
  unfold connectViaAuthDirect, bind, call, emit, ret.
  destruct (auth_NewClient env h (directConfig env cfg)) as [c|e]; simpl.
  - destruct (client_Ping env _ ctx c) as [e|]; simpl; frame_log; attempt_done;
      eexists; reflexivity.
  - frame_log; attempt_done. eexists; reflexivity.
Qed.

(** The tunnel attempt meets [attempt_ok], also when it panics. *)
Lemma connectViaProxyTunnel_log cfg h :
  exists new,
    snd (connectViaProxyTunnel env ctx cfg h) = new ++ h /\
    attempt_ok ctx (fst (connectViaProxyTunnel env ctx cfg h)) new.
Proof.
  unfold connectViaProxyTunnel, bind, call, emit, ret, raise.
  destruct (AuthServers cfg) as [|proxy rest]; simpl; [frame_log; attempt_done|].
  destruct (new_CachingResolver env _ ctx _) as [resolver|e]; simpl;
    [|frame_log; attempt_done].
  destruct (TLS cfg) as [tlsConfig|]; simpl; [|frame_log; attempt_done].
  destruct (new_TunnelAuthDialer env _ _) as [dialer|e]; simpl;
    [|frame_log; attempt_done].
  destruct (auth_NewClient env _ _) as [c|e]; simpl; [|frame_log; attempt_done].
  destruct (client_Ping env _ ctx c) as [e|]; simpl; frame_log; attempt_done.
Qed.

End Connect_facts.

Section Connect_claims.
Import Trace Authclient.
Variable env : Env.
Variable ctx : Context.

(** C4.  With SSH credentials, when the direct attempt and then the
    tunnel attempt fail, [Connect] returns the aggregate of two errors:
    the direct failure and the tunnel failure, each under its own
    message and each still reachable as the cause of its member. *)
Theorem Connect_both_paths_fail
    (cfg : Config) (h : list Event) (log : Logger) (ssh : ssh_ClientConfig)
    (direct_failure tunnel_failure : error) (h1 h2 : list Event) :
  Log cfg = Some log ->
  SSH cfg = Some ssh ->
  connectViaAuthDirect env ctx cfg (Connecting cfg log :: h) =
    (Ret (Err direct_failure), h1) ->
  connectViaProxyTunnel env ctx cfg h1 = (Ret (Err tunnel_failure), h2) ->
  exists aggregate,
    Connect env ctx cfg h = (Ret (Err aggregate), h2) /\
    members aggregate =
      [ UserMessage direct_failure "failed direct dial to auth server: %v" [direct_failure];
        UserMessage tunnel_failure
          "failed dial to auth server through reverse tunnel: %v" [tunnel_failure] ] /\
    List.map cause (members aggregate) = [cause direct_failure; cause tunnel_failure].
Proof.
  intros Hlog Hssh Hdirect Htunnel.
  exists (Aggregate [directErr direct_failure; proxyTunnelErr tunnel_failure]).
  split; [|split; reflexivity].
  unfold Connect, bind, emit. rewrite Hlog, Hdirect, Hssh, Htunnel. reflexivity.
Qed.

(** C5.  On both paths and in [Connect] as a whole: a client whose ping
    failed is closed directly after that ping; a client that is returned
    answered the ping that precedes the return and is the only client
    left open; when no client is returned, the clients that are open
    afterwards are those that were open before. *)
Theorem Connect_probe_discipline (cfg : Config) (h : list Event) :
  (exists new, snd (connectViaAuthDirect env ctx cfg h) = new ++ h /\
               attempt_ok ctx (fst (connectViaAuthDirect env ctx cfg h)) new) /\
  (exists new, snd (connectViaProxyTunnel env ctx cfg h) = new ++ h /\
               attempt_ok ctx (fst (connectViaProxyTunnel env ctx cfg h)) new) /\
  (exists new, snd (Connect env ctx cfg h) = new ++ h /\
               attempt_ok ctx (fst (Connect env ctx cfg h)) new).
Proof.
  split; [|split].
  - destruct (connectViaAuthDirect_log env ctx cfg h) as (new & Hnew & Hok & _).
    exists new. split; assumption.
  - apply connectViaProxyTunnel_log.
  - unfold Connect, bind, emit, raise.
    destruct (Log cfg) as [log|]; simpl.
    2:{ exists []. split; [reflexivity|]. split; [reflexivity | reflexivity]. }
    destruct (connectViaAuthDirect_log env ctx cfg (Connecting cfg log :: h))
      as (new1 & Hnew1 & [Hclosed1 Hok1] & _ & (r1 & Hr1)).
    destruct (connectViaAuthDirect env ctx cfg (Connecting cfg log :: h)) as [o1 h1].
    simpl in Hnew1, Hok1, Hr1. subst o1 h1.
    assert (Hdebug : failed_pings_closed
                       [Connecting cfg log] = true)
      by reflexivity.
    destruct r1 as [c|e1].
    + exists (new1 ++ [Connecting cfg log]).
      split; [simpl; rewrite <- app_assoc; reflexivity|].
      destruct Hok1 as [(c_config & older & ->) Hopen].
      split; [apply failed_pings_closed_app; assumption|]. split.
      * eexists _, _. reflexivity.
      * intros h0. rewrite <- app_assoc. rewrite Hopen. reflexivity.
    + destruct (SSH cfg) as [ssh|].
      * destruct (connectViaProxyTunnel_log env ctx cfg (new1 ++ Connecting cfg log :: h))
          as (new2 & Hnew2 & [Hclosed2 Hok2]).
        destruct (connectViaProxyTunnel env ctx cfg (new1 ++ Connecting cfg log :: h))
          as [o2 h2].
        simpl in Hnew2, Hok2. subst h2.
        exists (new2 ++ new1 ++ [Connecting cfg log]).
        assert (Hframe : new2 ++ new1 ++ Connecting cfg log :: h =
                         (new2 ++ new1 ++ [Connecting cfg log])
                         ++ h)
          by (rewrite <- !app_assoc; reflexivity).
        assert (Hclosed : failed_pings_closed
                   (new2 ++ new1 ++ [Connecting cfg log]) = true)
          by (repeat apply failed_pings_closed_app; assumption).
        assert (Hrest : forall h0,
                   open_clients ((new1 ++ [Connecting cfg log])
                                 ++ h0) = open_clients h0)
          by (intros h0; rewrite <- app_assoc; rewrite Hok1; reflexivity).
        destruct o2 as [[c|e2]|p]; simpl; (split; [exact Hframe|]);
          (split; [exact Hclosed|]).
        -- destruct Hok2 as [(c_config & older & ->) Hopen]. split.
           ++ eexists _, _. reflexivity.
           ++ intros h0. rewrite <- !app_assoc.
              rewrite Hopen. rewrite app_assoc. rewrite Hrest. reflexivity.
        -- intros h0. rewrite <- !app_assoc.
           rewrite Hok2. rewrite app_assoc. apply Hrest.
        -- intros h0. rewrite <- !app_assoc.
           rewrite Hok2. rewrite app_assoc. apply Hrest.
      * exists (new1 ++ [Connecting cfg log]).
        split; [simpl; rewrite <- app_assoc; reflexivity|].
        split; [apply failed_pings_closed_app; assumption|].
        intros h0. rewrite <- app_assoc. rewrite Hok1. reflexivity.
Qed.

(** C6.  Without SSH credentials, when the direct attempt fails,
    [Connect] returns the direct failure under the direct-dial message
    and stops where the direct attempt stopped: nothing of the tunnel
    path has happened. *)
Theorem Connect_without_ssh_no_fallback
    (cfg : Config) (h : list Event) (log : Logger)
    (direct_failure : error) (h1 : list Event) :
  Log cfg = Some log ->
  SSH cfg = None ->
  connectViaAuthDirect env ctx cfg (Connecting cfg log :: h) =
    (Ret (Err direct_failure), h1) ->
  Connect env ctx cfg h =
    (Ret (Err (UserMessage direct_failure
                 "failed direct dial to auth server: %v" [direct_failure])), h1) /\
  exists new, h1 = new ++ h /\ Forall (fun ev => tunnel_event ev = false) new.
Proof.
  intros Hlog Hssh Hdirect. split.
  - unfold Connect, bind, emit. rewrite Hlog, Hdirect, Hssh. reflexivity.
  - destruct (connectViaAuthDirect_log env ctx cfg (Connecting cfg log :: h))
      as (new & Hnew & _ & Hall & _).
    rewrite Hdirect in Hnew. simpl in Hnew.
    exists (new ++ [Connecting cfg log]).
    split; [rewrite Hnew, <- app_assoc; reflexivity|].
    apply Forall_app. split; [exact Hall | repeat constructor].
Qed.

(** C9.  When the direct attempt succeeds, [Connect] returns its client
    and stops where the direct attempt stopped: no resolver, no tunnel
    dialer and no tunnelled client has been made. *)
Theorem Connect_direct_success_no_tunnel_work
    (cfg : Config) (h : list Event) (log : Logger)
    (directClient : Client) (h1 : list Event) :
  Log cfg = Some log ->
  connectViaAuthDirect env ctx cfg (Connecting cfg log :: h) =
    (Ret (Ok directClient), h1) ->
  Connect env ctx cfg h = (Ret (Ok directClient), h1) /\
  exists new, h1 = new ++ h /\ Forall (fun ev => tunnel_event ev = false) new.
Proof.
  intros Hlog Hdirect. split.
  - unfold Connect, bind, emit. rewrite Hlog, Hdirect. reflexivity.
  - destruct (connectViaAuthDirect_log env ctx cfg (Connecting cfg log :: h))
      as (new & Hnew & _ & Hall & _).
    rewrite Hdirect in Hnew. simpl in Hnew.
    exists (new ++ [Connecting cfg log]).
    split; [rewrite Hnew, <- app_assoc; reflexivity|].
    apply Forall_app. split; [exact Hall | repeat constructor].
Qed.

(** C10.  With an empty address list, SSH credentials and a failed direct
    attempt, the tunnel fallback indexes element 0 of the empty list:
    [Connect] ends in an index-out-of-range panic and returns no error
    value. *)
Theorem Connect_empty_address_list_panics
    (cfg : Config) (h : list Event) (log : Logger) (ssh : ssh_ClientConfig)
    (direct_failure : error) (h1 : list Event) :
  Log cfg = Some log ->
  SSH cfg = Some ssh ->
  AuthServers cfg = [] ->
  connectViaAuthDirect env ctx cfg (Connecting cfg log :: h) =
    (Ret (Err direct_failure), h1) ->
  Connect env ctx cfg h = (Panic (IndexOutOfRange 0 0), h1) /\
  forall r, fst (Connect env ctx cfg h) <> Ret r.
Proof.
  intros Hlog Hssh Haddrs Hdirect.
  assert (Hrun : Connect env ctx cfg h = (Panic (IndexOutOfRange 0 0), h1)).
  { unfold Connect, bind, emit. rewrite Hlog, Hdirect, Hssh.
    unfold connectViaProxyTunnel. rewrite Haddrs. reflexivity. }
  split; [exact Hrun|]. intros r. rewrite Hrun. discriminate.
Qed.

End Connect_claims.

Section Connect_instances.
Import Trace Authclient DialScenario.

Lemma Connect_both_paths_fail_witness :
  (Log cfg_ssh = Some 0 /\ SSH cfg_ssh = Some sshConfig) /\
  exists aggregate,
    fst (Connect env_down 0 cfg_ssh []) = Ret (Err aggregate) /\
    List.map cause (members aggregate) = [refused; no_tunnel].
Proof.
  split; [split; reflexivity|].
  destruct (Connect_both_paths_fail env_down 0 cfg_ssh [] 0 sshConfig refused no_tunnel
              _ _ eq_refl eq_refl eq_refl eq_refl) as (aggregate & Hrun & _ & Hcauses).
  exists aggregate. split; [rewrite Hrun; reflexivity | exact Hcauses].
Defined.

Lemma Connect_without_ssh_no_fallback_witness :
  (Log cfg_no_ssh = Some 0 /\ SSH cfg_no_ssh = None) /\
  fst (Connect env_down 0 cfg_no_ssh []) =
  Ret (Err (UserMessage refused "failed direct dial to auth server: %v" [refused])).
Proof.
  split; [split; reflexivity|].
  rewrite (proj1 (Connect_without_ssh_no_fallback env_down 0 cfg_no_ssh [] 0 refused
                    _ eq_refl eq_refl eq_refl)).
  reflexivity.
Defined.

Lemma Connect_direct_success_no_tunnel_work_witness :
  Log cfg_ssh = Some 0 /\
  Connect env_direct_up 0 cfg_ssh [] =
  (Ret (Ok 7),
   [ Ping 0 7 None;
     NewClient (directConfig env_direct_up cfg_ssh) (Ok 7);
     Debugf 0 "Connecting to: %v." [proxy] ]).
Proof.
  split; [reflexivity|].
  exact (proj1 (Connect_direct_success_no_tunnel_work env_direct_up 0 cfg_ssh [] 0 7
                  _ eq_refl eq_refl)).
Defined.

Lemma Connect_empty_address_list_panics_witness :
  (Log cfg_no_addrs = Some 0 /\ SSH cfg_no_addrs = Some sshConfig /\
   AuthServers cfg_no_addrs = []) /\
  fst (Connect env_down 0 cfg_no_addrs []) = Panic (IndexOutOfRange 0 0).
Proof.
  split; [repeat split|].
  rewrite (proj1 (Connect_empty_address_list_panics env_down 0 cfg_no_addrs [] 0 sshConfig
                    refused _ eq_refl eq_refl eq_refl eq_refl)).
  reflexivity.
Defined.

(** A ping that fails on both paths: each client is closed right after
    its ping, before the next thing happens. *)
Example Connect_no_pong :
  Connect env_no_pong 0 cfg_ssh [] =
  (Ret (Err (Aggregate
       [ directErr (New ConnectionProblem "ping: deadline exceeded");
         proxyTunnelErr (New ConnectionProblem "ping: deadline exceeded") ])),
   [ Close 8;
     Ping 0 8 (Some (New ConnectionProblem "ping: deadline exceeded"));
     NewClient (tunnelConfig cfg_ssh 3) (Ok 8);
     NewTunnelAuthDialer
       {| dialer_Resolver := 2; dialer_ClientConfig := Some sshConfig;
          dialer_Log := Some 0; dialer_InsecureSkipTLSVerify := false;
          dialer_ClusterCAs := Some 1 |} (Ok 3);
     CachingResolver 0 1 (Ok 2);
     WebClientResolver
       {| web_Context := 0; web_ProxyAddr := "proxy.example.com:3080";
          web_Insecure := false; web_Timeout := 30%Z |} 1;
     Close 7;
     Ping 0 7 (Some (New ConnectionProblem "ping: deadline exceeded"));
     NewClient (directConfig env_no_pong cfg_ssh) (Ok 7);
     Debugf 0 "Connecting to: %v." [proxy] ]).
Proof. reflexivity. Qed.

End Connect_instances.

(** ** The enforced expiry *)

Section Expiry_claims.
Import Srv.

(** C8.  The effective disconnect expiry of an identity: the zero time
    when the disconnect-expired-cert setting, as adjusted by the access
    checker, is off; otherwise the previous-identity expiry when the
    identity is MFA-verified and that expiry is set, and the
    certificate's own expiry in every other case. *)
Theorem GetDisconnectExpiredCertFromIdentity_cases
    (checker : AccessChecker) (authPref : AuthPreference) (identity : Identity) :
  let enabled := AdjustDisconnectExpiredCert checker (GetDisconnectExpiredCert authPref) in
  let got := GetDisconnectExpiredCertFromIdentity checker authPref identity in
  (enabled = false -> got = zeroTime) /\
  (enabled = true -> MFAVerified identity <> "" ->
     PreviousIdentityExpires identity <> zeroTime ->
     got = PreviousIdentityExpires identity) /\
  (enabled = true ->
     MFAVerified identity = "" \/ PreviousIdentityExpires identity = zeroTime ->
     got = Expires identity).
Proof.
  unfold GetDisconnectExpiredCertFromIdentity, mfa_verified, IsZero, zeroTime.
  cbv zeta. split; [|split].
  - intros ->. reflexivity.
  - intros -> Hmfa Hprev. simpl.
    apply String.eqb_neq in Hmfa. rewrite Hmfa.
    apply Z.eqb_neq in Hprev. rewrite Hprev. reflexivity.
  - intros -> [Hmfa|Hprev]; simpl.
    + rewrite Hmfa. reflexivity.
    + rewrite Hprev. rewrite andb_false_r. reflexivity.
Qed.

Lemma GetDisconnectExpiredCertFromIdentity_cases_witness :
  GetDisconnectExpiredCertFromIdentity mockChecker (mockAuthPreference true)
    {| Expires := 100%Z; PreviousIdentityExpires := (100 + Hour)%Z;
       MFAVerified := "1234" |}
  = (100 + Hour)%Z.
Proof.
  apply (proj1 (proj2 (GetDisconnectExpiredCertFromIdentity_cases
                         mockChecker (mockAuthPreference true)
                         {| Expires := 100%Z; PreviousIdentityExpires := (100 + Hour)%Z;
                            MFAVerified := "1234" |})));
    [reflexivity | discriminate | discriminate].
Defined.

(** The three rows of [TestGetDisconnectExpiredCertFromIdentity] pass,
    whatever non-zero time the test clock shows. *)
Lemma TestGetDisconnectExpiredCertFromIdentity (now : Time) :
  (0 < now)%Z -> forallb run_test (test_table now) = true.
Proof.
  intros Hnow. unfold test_table, run_test, GetDisconnectExpiredCertFromIdentity,
    mfa_verified, IsZero, zeroTime, Hour; simpl.
  replace (now + 3600000000000 =? 0)%Z with false by (symmetry; apply Z.eqb_neq; lia).
  simpl. rewrite !Z.eqb_refl. reflexivity.
Qed.

End Expiry_claims.

(** ** Running credentials on U2F devices *)

Section Webauthncli_facts.
Import Trace Webauthncli.
Variable env : Env.

Lemma removed_get_insert (key key' : deviceKey) (removedDevices : gmap deviceKey bool) :
  removed_get (<[key := true]> removedDevices) key' =
  if decide (key = key') then true else removed_get removedDevices key'.
Proof.
  unfold removed_get. rewrite lookup_insert. destruct (decide (key = key')); reflexivity.
Qed.

Lemma removed_get_insert_mono (key key' : deviceKey) (removedDevices : gmap deviceKey bool) :
  removed_get removedDevices key' = true ->
  removed_get (<[key := true]> removedDevices) key' = true.
Proof.
  intros H. rewrite removed_get_insert. destruct (decide (key = key')); auto.
Qed.

Lemma asks_key (key : deviceKey) i info token r :
  asks key (RunCredential i info token r) = true -> key = (i, Path info).
Proof.
  destruct key as [j p]. simpl. intros H.
  apply andb_true_iff in H. destruct H as [Hi Hp].
  apply Nat.eqb_eq in Hi. apply String.eqb_eq in Hp. congruence.
Qed.

Lemma swallows_or_not err :
  presence_required env err = false -> removes env err = false -> swallows env err = true.
Proof.
  unfold presence_required, removes, swallows. intros ->. simpl.
  intros ->. reflexivity.
Qed.

(** Two stretches of log that each keep [never_asked_again] do so
    together when the newer one asks none of the keys the older one
    removed. *)
Lemma never_asked_again_app new2 new1 :
  never_asked_again env new1 ->
  never_asked_again env new2 ->
  (forall ev key, In ev new1 -> removal env ev = Some key -> snd key <> "" ->
     Forall (fun ev' => asks key ev' = false) new2) ->
  never_asked_again env (new2 ++ new1).
Proof.
  intros H1 H2 Hcross newer ev older key Hsplit Hrem Hpath.
  apply List.app_eq_app in Hsplit.
  destruct Hsplit as (l & [[-> Hl]|[-> Hl]]).
  - destruct l as [|e l'].
    + simpl in Hl. subst new1.
      assert (Hall := Hcross ev key (or_introl eq_refl) Hrem Hpath).
      rewrite app_nil_r in Hall. exact Hall.
    + injection Hl as <- ->.
      apply (H2 newer ev l' key); [reflexivity | assumption | assumption].
  - apply Forall_app. split.
    + apply (Hcross ev key); [|assumption|assumption].
      rewrite Hl. apply in_or_app. right. left. reflexivity.
    + apply (H1 l ev older key); assumption.
Qed.

Lemma never_asked_again_one ev : never_asked_again env [ev].
Proof.
  intros newer ev0 older key Hsplit _ _.
  destruct newer as [|e newer]; [constructor|].
  destruct newer; discriminate.
Qed.

(** An event that is no callback run can be put on top of a stretch. *)
Lemma never_asked_again_cons ev new :
  (forall key, asks key ev = false) ->
  never_asked_again env new ->
  never_asked_again env (ev :: new).
Proof.
  intros Hev Hnew newer ev0 older key Hsplit Hrem Hpath.
  destruct newer as [|e newer]; [constructor|].
  injection Hsplit as <- ->. constructor; [apply Hev|].
  apply (Hnew newer ev0 older key); [reflexivity | assumption | assumption].
Qed.

Lemma swallowed_of_app new2 new1 :
  swallowed_of env (new2 ++ new1) = swallowed_of env new1 ++ swallowed_of env new2.
Proof.
  induction new2 as [|ev new2 IH]; simpl; [rewrite app_nil_r; reflexivity|].
  rewrite IH, <- app_assoc. reflexivity.
Qed.

Lemma loop_facts_nil removedDevices swallowed :
  loop_facts env removedDevices swallowed (Running removedDevices swallowed) [].
Proof.
  unfold loop_facts. simpl.
  split; [auto|]. split; [auto|].
  split; [intros ev key []|].
  split; [intros; constructor|].
  split; [intros newer ev older key Hsplit; destruct newer; discriminate|].
  split; [rewrite app_nil_r; reflexivity | constructor].
Qed.

(** Facts compose along the loops. *)
Lemma loop_facts_trans removedDevices swallowed removed1 swallowed1 new1 s2 new2 :
  loop_facts env removedDevices swallowed (Running removed1 swallowed1) new1 ->
  loop_facts env removed1 swallowed1 s2 new2 ->
  loop_facts env removedDevices swallowed s2 (new2 ++ new1).
Proof.
  intros (Hmono1 & Honly1 & Hmark1 & Hstart1 & Hnaa1 & Hsw1 & Hfail1)
         (Hmono2 & Honly2 & Hmark2 & Hstart2 & Hnaa2 & Hend2).
  simpl in Hmono1, Honly1, Hmark1.
  unfold loop_facts. repeat apply conj.
  - intros key H. apply Hmono2, Hmono1, H.
  - intros key H. destruct (Honly2 key H) as [H1|(ev & Hin & Hrem)].
    + destruct (Honly1 key H1) as [H0|(ev & Hin & Hrem)]; [left; exact H0|].
      right. exists ev. split; [apply in_or_app; right; exact Hin | exact Hrem].
    + right. exists ev. split; [apply in_or_app; left; exact Hin | exact Hrem].
  - intros ev key Hin Hrem. apply in_app_or in Hin. destruct Hin as [Hin|Hin].
    + apply (Hmark2 ev key Hin Hrem).
    + apply Hmono2. apply (Hmark1 ev key Hin Hrem).
  - intros key H Hpath. apply Forall_app. split.
    + apply Hstart2; [apply Hmono1; exact H | exact Hpath].
    + apply Hstart1; assumption.
  - apply never_asked_again_app; [exact Hnaa1 | exact Hnaa2 |].
    intros ev key Hin Hrem Hpath. apply Hstart2; [|exact Hpath].
    apply (Hmark1 ev key Hin Hrem).
  - destruct s2 as [removed2|removed2 swallowed2].
    + destruct Hend2 as (ev & older & -> & Hok & Hfail2).
      exists ev, (older ++ new1). split; [reflexivity|]. split; [exact Hok|].
      apply Forall_app. split; assumption.
    + destruct Hend2 as [-> Hfail2]. split.
      * rewrite swallowed_of_app, Hsw1, <- app_assoc. reflexivity.
      * apply Forall_app. split; assumption.
Qed.

(** One event of the outer loop that is no callback run. *)
Lemma loop_facts_open removedDevices swallowed ev :
  (forall key, asks key ev = false) ->
  removal env ev = None ->
  succeeded ev = false ->
  loop_facts env removedDevices swallowed
    (Running removedDevices (swallowed ++ swallowed_of env [ev])) [ev].
Proof.
  intros Hasks Hrem Hfail. unfold loop_facts, marked. simpl. repeat apply conj; auto.
  - intros ev' key [<-|[]] H. congruence.
  - apply never_asked_again_one.
Qed.

(** One callback run, made because the key was not skipped. *)
Lemma loop_facts_run removedDevices swallowed i info token r :
  negb (String.eqb (Path info) "") && removed_get removedDevices (i, Path info) = false ->
  loop_facts env removedDevices swallowed
    match r with
    | None => Returned removedDevices
    | Some err =>
        if presence_required env err then Running removedDevices swallowed
        else if removes env err
        then Running (<[(i, Path info) := true]> removedDevices) swallowed
        else Running removedDevices (swallowed ++ [err])
    end
    [RunCredential i info token r].
Proof.
  intros Hguard.
  assert (Hstart : forall key, removed_get removedDevices key = true -> snd key <> "" ->
            Forall (fun ev => asks key ev = false) [RunCredential i info token r]).
  { intros key Hkey Hpath. constructor; [|constructor].
    destruct (asks key (RunCredential i info token r)) eqn:Hasks; [|reflexivity].
    apply asks_key in Hasks. subst key. simpl in Hpath.
    rewrite Hkey, andb_true_r in Hguard.
    apply negb_false_iff, String.eqb_eq in Hguard. contradiction. }
  assert (Hone := never_asked_again_one (RunCredential i info token r)).
  destruct r as [err|].
  - assert (Hcases : presence_required env err = true /\ removes env err = false /\
                       swallows env err = false \/
                     presence_required env err = false /\ removes env err = true /\
                       swallows env err = false \/
                     presence_required env err = false /\ removes env err = false /\
                       swallows env err = true).
    { unfold presence_required, removes, swallows.
      destruct (errors_Is env err ErrPresenceRequired); simpl; [auto|].
      destruct (errors_Is env err ErrUnknownKeyHandle || errors_Is env err ErrAlreadyRegistered);
        simpl; auto. }
    destruct Hcases as [(Hp & Hr & Hs)|[(Hp & Hr & Hs)|(Hp & Hr & Hs)]];
      rewrite Hp; try rewrite Hr; unfold loop_facts; simpl; rewrite Hs.
    + split; [auto|]. split; [auto|].
      split; [intros ev key [<-|[]] H; simpl in H; rewrite Hr in H; discriminate|].
      split; [exact Hstart|]. split; [exact Hone|].
      split; [rewrite app_nil_r; reflexivity | repeat constructor].
    + split; [intros key H; apply removed_get_insert_mono; exact H|].
      split.
      { intros key H. destruct (decide ((i, Path info) = key)) as [<-|Hne].
        - right. eexists. split; [left; reflexivity|]. simpl. rewrite Hr. reflexivity.
        - left. rewrite removed_get_insert, decide_False in H by exact Hne. exact H. }
      split.
      { intros ev key [<-|[]] H. simpl in H. rewrite Hr in H. injection H as <-.
        rewrite removed_get_insert, decide_True by reflexivity. reflexivity. }
      split; [exact Hstart|]. split; [exact Hone|].
      split; [rewrite app_nil_r; reflexivity | repeat constructor].
    + split; [auto|]. split; [auto|].
      split; [intros ev key [<-|[]] H; simpl in H; rewrite Hr in H; discriminate|].
      split; [exact Hstart|]. split; [exact Hone|].
      split; [reflexivity | repeat constructor].
  - unfold loop_facts; simpl.
    split; [auto|]. split; [auto|].
    split; [intros ev key [<-|[]] H; discriminate|].
    split; [exact Hstart|]. split; [exact Hone|].
    eexists _, []. repeat split. constructor.
Qed.

(** The inner loop keeps [loop_facts]; it never panics. *)
Lemma range_runCredentials_run info token runCredentials :
  forall i removedDevices swallowed h,
  exists s new,
    range_runCredentials env info token i runCredentials removedDevices swallowed h =
      (Ret s, new ++ h) /\
    loop_facts env removedDevices swallowed s new.
Proof.
  induction runCredentials as [|fn rest IH]; intros i removedDevices swallowed h; simpl.
  - exists (Running removedDevices swallowed), []. split; [reflexivity | apply loop_facts_nil].
  - destruct (negb (String.eqb (Path info) "") && removed_get removedDevices (i, Path info))
      eqn:Hguard; [apply IH|].
    unfold bind, call. cbv zeta.
    assert (Hrun := loop_facts_run removedDevices swallowed i info token (fn h token) Hguard).
    unfold presence_required, removes in Hrun.
    destruct (fn h token) as [err|].
    + destruct (errors_Is env err ErrPresenceRequired); simpl in Hrun.
      * destruct (IH (S i) removedDevices swallowed
                     (RunCredential i info token (Some err) :: h)) as (s & new & Heq & Hfacts).
        exists s, (new ++ [RunCredential i info token (Some err)]).
        split; [rewrite <- app_assoc; exact Heq|].
        exact (loop_facts_trans _ _ _ _ _ _ _ Hrun Hfacts).
      * destruct (errors_Is env err ErrUnknownKeyHandle
                  || errors_Is env err ErrAlreadyRegistered).
        -- destruct (IH (S i) (<[(i, Path info) := true]> removedDevices) swallowed
                       (RunCredential i info token (Some err) :: h))
             as (s & new & Heq & Hfacts).
           exists s, (new ++ [RunCredential i info token (Some err)]).
           split; [rewrite <- app_assoc; exact Heq|].
           exact (loop_facts_trans _ _ _ _ _ _ _ Hrun Hfacts).
        -- destruct (IH (S i) removedDevices (swallowed ++ [err])
                       (RunCredential i info token (Some err) :: h))
             as (s & new & Heq & Hfacts).
           exists s, (new ++ [RunCredential i info token (Some err)]).
           split; [rewrite <- app_assoc; exact Heq|].
           exact (loop_facts_trans _ _ _ _ _ _ _ Hrun Hfacts).
    + exists (Returned removedDevices), [RunCredential i info token None].
      split; [reflexivity | exact Hrun].
Qed.

(** The outer loop keeps [loop_facts]; it never panics. *)
Lemma range_infos_run infos runCredentials :
  forall removedDevices swallowed h,
  exists s new,
    range_infos env infos runCredentials removedDevices swallowed h = (Ret s, new ++ h) /\
    loop_facts env removedDevices swallowed s new.
Proof.
  induction infos as [|info rest IH]; intros removedDevices swallowed h; simpl.
  - exists (Running removedDevices swallowed), []. split; [reflexivity | apply loop_facts_nil].
  - unfold bind at 1. unfold call at 1. cbv zeta.
    destruct (u2fOpen env h info) as [dev|err].
    + unfold bind at 1. unfold call at 1. cbv zeta.
      set (token := u2fNewToken env (U2fOpen info (Ok dev) :: h) dev).
      assert (Hopen : loop_facts env removedDevices swallowed
                (Running removedDevices swallowed)
                ([U2fNewToken dev token] ++ [U2fOpen info (Ok dev)])).
      { eapply loop_facts_trans.
        - apply (loop_facts_open removedDevices swallowed (U2fOpen info (Ok dev)));
            reflexivity.
        - simpl. rewrite app_nil_r.
          pose proof (loop_facts_open removedDevices swallowed (U2fNewToken dev token)
                        (fun _ => eq_refl) eq_refl eq_refl) as H.
          simpl in H. rewrite app_nil_r in H. exact H. }
      destruct (range_runCredentials_run info token runCredentials 0 removedDevices swallowed
                  (U2fNewToken dev token :: U2fOpen info (Ok dev) :: h))
        as (s1 & new1 & Heq1 & Hfacts1).
      unfold bind. rewrite Heq1.
      destruct s1 as [removed1|removed1 swallowed1].
      * exists (Returned removed1), (new1 ++ [U2fNewToken dev token] ++ [U2fOpen info (Ok dev)]).
        split; [rewrite <- !app_assoc; reflexivity|].
        exact (loop_facts_trans _ _ _ _ _ _ _ Hopen Hfacts1).
      * destruct (IH removed1 swallowed1
                    (new1 ++ U2fNewToken dev token :: U2fOpen info (Ok dev) :: h))
          as (s & new & Heq & Hfacts).
        exists s, (new ++ new1 ++ [U2fNewToken dev token] ++ [U2fOpen info (Ok dev)]).
        split; [rewrite Heq, <- !app_assoc; reflexivity|].
        refine (loop_facts_trans _ _ _ _ _ _ _ _ Hfacts).
        exact (loop_facts_trans _ _ _ _ _ _ _ Hopen Hfacts1).
    + destruct (IH removedDevices (swallowed ++ [err]) (U2fOpen info (Err err) :: h))
        as (s & new & Heq & Hfacts).
      exists s, (new ++ [U2fOpen info (Err err)]).
      split; [rewrite Heq, <- app_assoc; reflexivity|].
      refine (loop_facts_trans _ _ _ _ _ _ _ _ Hfacts).
      apply (loop_facts_open removedDevices swallowed (U2fOpen info (Err err))); reflexivity.
Qed.

(** One pass over the devices keeps [loop_facts], started with no
    swallowed error; what it returns is read off the state the loops end
    in, unless the devices cannot be listed. *)
Lemma runOnU2FDevicesOnce_run removedDevices runCredentials h :
  exists s new,
    loop_facts env removedDevices [] s new /\
    match u2fDevices env h with
    | Err err =>
        s = Running removedDevices [] /\ new = [U2fDevices (Err err)] /\
        runOnU2FDevicesOnce env removedDevices runCredentials h =
          (Ret (Some (Wrap err), removedDevices), new ++ h)
    | Ok infos =>
        runOnU2FDevicesOnce env removedDevices runCredentials h =
          (Ret (once_result s), new ++ h)
    end.
Proof.
  destruct (u2fDevices env h) as [infos|err] eqn:Hdevices.
  - destruct (range_infos_run infos runCredentials removedDevices []
                (U2fDevices (Ok infos) :: h)) as (s & new & Heq & Hfacts).
    exists s, (new ++ [U2fDevices (Ok infos)]). split.
    + refine (loop_facts_trans _ _ _ _ _ _ _ _ Hfacts).
      apply (loop_facts_open removedDevices [] (U2fDevices (Ok infos))); reflexivity.
    + unfold runOnU2FDevicesOnce, bind, call. cbv zeta.
      rewrite Hdevices, Heq, <- app_assoc.
      destruct s as [removed'|removed' [|err swallowed]]; reflexivity.
  - exists (Running removedDevices []), [U2fDevices (Err err)]. split.
    + apply (loop_facts_open removedDevices [] (U2fDevices (Err err))); reflexivity.
    + split; [reflexivity|]. split; [reflexivity|].
      unfold runOnU2FDevicesOnce, bind, call. cbv zeta. rewrite Hdevices. reflexivity.
Qed.

(** With callbacks that never return nil the inner loop runs to its end. *)
Lemma range_runCredentials_no_success info token runCredentials :
  never_succeed runCredentials ->
  forall i removedDevices swallowed h,
  exists removed' swallowed',
    fst (range_runCredentials env info token i runCredentials removedDevices swallowed h) =
    Ret (Running removed' swallowed').
Proof.
  unfold never_succeed.
  induction runCredentials as [|fn rest IH]; intros Hnever i removedDevices swallowed h; simpl.
  - eexists _, _. reflexivity.
  - apply Forall_cons_iff in Hnever. destruct Hnever as [Hfn Hrest].
    destruct (negb (String.eqb (Path info) "") && removed_get removedDevices (i, Path info));
      [apply IH; exact Hrest|].
    unfold bind, call. cbv zeta.
    destruct (fn h token) as [err|] eqn:Hanswer; [|exfalso; exact (Hfn h token Hanswer)].
    destruct (errors_Is env err ErrPresenceRequired); [apply IH; exact Hrest|].
    destruct (errors_Is env err ErrUnknownKeyHandle || errors_Is env err ErrAlreadyRegistered);
      apply IH; exact Hrest.
Qed.

Lemma range_infos_no_success infos runCredentials :
  never_succeed runCredentials ->
  forall removedDevices swallowed h,
  exists removed' swallowed',
    fst (range_infos env infos runCredentials removedDevices swallowed h) =
    Ret (Running removed' swallowed').
Proof.
  intros Hnever.
  induction infos as [|info rest IH]; intros removedDevices swallowed h; simpl.
  - eexists _, _. reflexivity.
  - unfold bind at 1. unfold call at 1. cbv zeta.
    destruct (u2fOpen env h info) as [dev|err]; [|apply IH].
    unfold bind at 1. unfold call at 1. cbv zeta.
    set (token := u2fNewToken env (U2fOpen info (Ok dev) :: h) dev).
    destruct (range_runCredentials_no_success info token runCredentials Hnever 0
                removedDevices swallowed
                (U2fNewToken dev token :: U2fOpen info (Ok dev) :: h))
      as (removed1 & swallowed1 & Hinner).
    unfold bind.
    destruct (range_runCredentials env info token 0 runCredentials removedDevices swallowed
                (U2fNewToken dev token :: U2fOpen info (Ok dev) :: h)) as [o h1].
    simpl in Hinner. subst o. apply IH.
Qed.

(** With callbacks that never return nil a pass returns an error. *)
Lemma runOnU2FDevicesOnce_no_success removedDevices runCredentials h :
  never_succeed runCredentials ->
  exists err removed',
    fst (runOnU2FDevicesOnce env removedDevices runCredentials h) = Ret (Some err, removed').
Proof.
  intros Hnever. unfold runOnU2FDevicesOnce. unfold bind at 1. unfold call at 1. cbv zeta.
  destruct (u2fDevices env h) as [infos|err]; [|eexists _, _; reflexivity].
  destruct (range_infos_no_success infos runCredentials Hnever removedDevices []
              (U2fDevices (Ok infos) :: h)) as (removed1 & swallowed1 & Hloop).
  unfold bind.
  destruct (range_infos env infos runCredentials removedDevices []
              (U2fDevices (Ok infos) :: h)) as [o h1].
  simpl in Hloop. subst o.
  destruct swallowed1; eexists _, _; reflexivity.
Qed.

Lemma never_asked_again_quiet pre new :
  Forall (fun ev => forall key, asks key ev = false) pre ->
  never_asked_again env new ->
  never_asked_again env (pre ++ new).
Proof.
  induction 1 as [|ev pre Hev Hpre IH]; simpl; [auto|].
  intros Hnew. apply never_asked_again_cons; auto.
Qed.

(** One pass, as the polling loop needs it. *)
Lemma runOnU2FDevicesOnce_summary removedDevices runCredentials h :
  exists err removed' new,
    runOnU2FDevicesOnce env removedDevices runCredentials h =
      (Ret (err, removed'), new ++ h) /\
    (forall key, removed_get removedDevices key = true -> removed_get removed' key = true) /\
    marked env removed' new /\
    (forall key, removed_get removedDevices key = true -> snd key <> "" ->
       Forall (fun ev => asks key ev = false) new) /\
    never_asked_again env new /\
    (err = None -> exists ev older, new = ev :: older /\ succeeded ev = true).
Proof.
  destruct (runOnU2FDevicesOnce_run removedDevices runCredentials h)
    as (s & new & (Hmono & _ & Hmark & Hstart & Hnaa & Hend) & Hrun).
  destruct (u2fDevices env h) as [infos|err].
  - exists (fst (once_result s)), (snd (once_result s)), new.
    split; [rewrite Hrun; destruct (once_result s); reflexivity|].
    assert (Hmap : snd (once_result s) = state_map s)
      by (destruct s as [m|m [|e sw]]; reflexivity).
    rewrite Hmap. repeat (split; [assumption|]).
    destruct s as [m|m [|e sw]]; simpl; [|discriminate|discriminate].
    intros _. destruct Hend as (ev & older & -> & Hok & _). eauto.
  - destruct Hrun as (-> & -> & Hrun).
    exists (Some (Wrap err)), removedDevices, [U2fDevices (Err err)].
    split; [exact Hrun|]. repeat (split; [assumption|]). discriminate.
Qed.

(** The polling loop never panics and keeps [never_asked_again] over all
    its rounds; it ends as [poll_end] says. *)
Lemma poll_run rounds runCredentials :
  forall removedDevices h,
  exists r new,
    poll env rounds runCredentials removedDevices h = (Ret r, new ++ h) /\
    never_asked_again env new /\
    (forall key, removed_get removedDevices key = true -> snd key <> "" ->
       Forall (fun ev => asks key ev = false) new) /\
    poll_end r new.
Proof.
  induction rounds as [|rounds IH]; intros removedDevices h.
  - exists None, []. split; [reflexivity|]. split; [|split; [intros; constructor | exact I]].
    intros newer ev older key Hsplit. destruct newer; discriminate.
  - destruct (runOnU2FDevicesOnce_summary removedDevices runCredentials h)
      as (err & removed1 & new1 & Hone & Hmono & Hmark & Hstart & Hnaa & Hnil).
    simpl. unfold bind at 1. rewrite Hone. cbn [fst snd].
    destruct err as [err|].
    2:{ exists (Some None), new1. split; [reflexivity|]. split; [exact Hnaa|].
        split; [exact Hstart | exact (Hnil eq_refl)]. }
    assert (Hmid : exists mid,
              Forall (fun ev => (forall key, asks key ev = false) /\ removal env ev = None) mid /\
              forall A (k : M A),
                ((if errors_Is env err errKeyMissingOrNotVerified then ret tt
                  else if negb (strings_Contains (Error_text env err) "hid: privilege violation")
                          && negb (strings_Contains (Error_text env err) "hid: not permitted")
                       then emit (Debug err) else ret tt) ;;; k) (new1 ++ h) =
                k (mid ++ new1 ++ h)).
    { destruct (errors_Is env err errKeyMissingOrNotVerified);
        [exists []; split; [constructor | reflexivity]|].
      destruct (negb (strings_Contains (Error_text env err) "hid: privilege violation")
                && negb (strings_Contains (Error_text env err) "hid: not permitted")).
      - exists [Debug err]. split; [repeat constructor | reflexivity].
      - exists []. split; [constructor | reflexivity]. }
    destruct Hmid as (mid & Hquiet & Hstep). rewrite Hstep.
    unfold bind at 1. unfold call at 1. cbv zeta.
    assert (Hpre : forall fired,
              Forall (fun ev => (forall key, asks key ev = false) /\ removal env ev = None)
                     (Select fired :: mid))
      by (intros fired; constructor; [split; reflexivity | exact Hquiet]).
    assert (Hnaa1 : forall fired, never_asked_again env ((Select fired :: mid) ++ new1)).
    { intros fired. apply never_asked_again_quiet; [|exact Hnaa].
      eapply List.Forall_impl; [|exact (Hpre fired)]. intros ev [H _]. exact H. }
    assert (Hstart1 : forall fired key, removed_get removedDevices key = true -> snd key <> "" ->
              Forall (fun ev => asks key ev = false) ((Select fired :: mid) ++ new1)).
    { intros fired key Hkey Hpath. apply Forall_app. split; [|apply Hstart; assumption].
      eapply List.Forall_impl; [|exact (Hpre fired)]. intros ev [H _]. apply H. }
    destruct (await env (mid ++ new1 ++ h)) as [|ctxErr].
    + destruct (IH removed1 (Select TickerC :: mid ++ new1 ++ h))
        as (r & new & Heq & Hnaa2 & Hstart2 & Hend).
      exists r, (new ++ (Select TickerC :: mid) ++ new1).
      split; [rewrite <- !app_assoc; exact Heq|]. split; [|split].
      * apply never_asked_again_app; [apply Hnaa1 | exact Hnaa2 |].
        intros ev key Hin Hrem Hpath. apply Hstart2; [|exact Hpath].
        apply in_app_or in Hin. destruct Hin as [Hin|Hin].
        -- exfalso. pose proof (Hpre TickerC) as Hq.
           rewrite List.Forall_forall in Hq. destruct (Hq ev Hin) as [_ Hnone]. congruence.
        -- apply (Hmark ev key Hin Hrem).
      * intros key Hkey Hpath. apply Forall_app. split.
        -- apply Hstart2; [apply Hmono; exact Hkey | exact Hpath].
        -- apply Hstart1; assumption.
      * destruct r as [[e|]|]; simpl in *; [| |exact I].
        -- destruct Hend as (c & older & -> & ->). eexists _, _. split; reflexivity.
        -- destruct Hend as (ev & older & -> & Hok). eexists _, _. split; [reflexivity | exact Hok].
    + exists (Some (Some (Wrap ctxErr))), ((Select (CtxDone ctxErr) :: mid) ++ new1).
      split; [rewrite <- !app_assoc; reflexivity|]. split; [apply Hnaa1|].
      split; [apply Hstart1|]. simpl. eexists _, _. split; reflexivity.
Qed.

End Webauthncli_facts.

Section Webauthncli_properties.
Import Trace Webauthncli.
Variable env : Env.

(** X1.  [runOnU2FDevicesOnce] returns (it does not panic), and after it a
    key reads [true] in [removedDevices] exactly if it read [true] before
    or a callback run of this pass ended for that key in
    [ErrUnknownKeyHandle] or [ErrAlreadyRegistered] (and not in
    [ErrPresenceRequired]). *)
Theorem runOnU2FDevicesOnce_removedDevices
    (removedDevices : gmap deviceKey bool) (runCredentials : list Credential)
    (h : list Event) :
  exists err removed' new,
    runOnU2FDevicesOnce env removedDevices runCredentials h =
      (Ret (err, removed'), new ++ h) /\
    forall key,
      removed_get removed' key = true <->
      removed_get removedDevices key = true \/
      exists ev, In ev new /\ removal env ev = Some key.
Proof.
  destruct (runOnU2FDevicesOnce_run env removedDevices runCredentials h)
    as (s & new & (Hmono & Honly & Hmark & _) & Hrun).
  assert (Hiff : forall key,
            removed_get (state_map s) key = true <->
            removed_get removedDevices key = true \/
            exists ev, In ev new /\ removal env ev = Some key).
  { intros key. split; [apply Honly|].
    intros [H|(ev & Hin & Hrem)]; [apply Hmono; exact H | exact (Hmark ev key Hin Hrem)]. }
  destruct (u2fDevices env h) as [infos|err].
  - exists (fst (once_result s)), (snd (once_result s)), new.
    split; [rewrite Hrun; destruct (once_result s); reflexivity|].
    replace (snd (once_result s)) with (state_map s)
      by (destruct s as [m|m [|e sw]]; reflexivity).
    exact Hiff.
  - destruct Hrun as (-> & -> & Hrun).
    exists (Some (Wrap err)), removedDevices, [U2fDevices (Err err)].
    split; [exact Hrun | exact Hiff].
Qed.

(** X2.  A pass does not run a callback on a device with a path when the
    key of that callback and path reads [true] in [removedDevices] at the
    start of the pass. *)
Theorem runOnU2FDevicesOnce_skips_removed
    (removedDevices : gmap deviceKey bool) (runCredentials : list Credential)
    (h : list Event) (key : deviceKey) :
  removed_get removedDevices key = true ->
  snd key <> "" ->
  exists new,
    snd (runOnU2FDevicesOnce env removedDevices runCredentials h) = new ++ h /\
    Forall (fun ev => asks key ev = false) new.
Proof.
  intros Hkey Hpath.
  destruct (runOnU2FDevicesOnce_summary env removedDevices runCredentials h)
    as (err & removed' & new & Hrun & _ & _ & Hstart & _).
  exists new. rewrite Hrun. split; [reflexivity | exact (Hstart key Hkey Hpath)].
Qed.

(** X3.  What a pass returns.  It returns nil exactly when a callback
    returned nil, and then at once: that run is the newest event and the
    only success.  Otherwise it returns the error of [u2fDevices] when the
    devices cannot be listed, and else the aggregate of the errors it
    swallowed, in the order they occurred (failed opens, and callback
    errors that are neither a wait for the user nor a removal), or
    [errKeyMissingOrNotVerified] when it swallowed none. *)
Theorem runOnU2FDevicesOnce_result
    (removedDevices : gmap deviceKey bool) (runCredentials : list Credential)
    (h : list Event) :
  exists new,
    snd (runOnU2FDevicesOnce env removedDevices runCredentials h) = new ++ h /\
    match fst (runOnU2FDevicesOnce env removedDevices runCredentials h) with
    | Ret (None, _) =>
        exists ev older, new = ev :: older /\ succeeded ev = true /\
          Forall (fun ev => succeeded ev = false) older
    | Ret (Some err, _) =>
        Forall (fun ev => succeeded ev = false) new /\
        match u2fDevices env h with
        | Err failed => err = Wrap failed /\ new = [U2fDevices (Err failed)]
        | Ok _ =>
            err = match swallowed_of env new with
                  | [] => errKeyMissingOrNotVerified
                  | swallowed => NewAggregate swallowed
                  end
        end
    | Panic _ => False
    end.
Proof.
  destruct (runOnU2FDevicesOnce_run env removedDevices runCredentials h)
    as (s & new & (_ & _ & _ & _ & _ & Hend) & Hrun).
  exists new. destruct (u2fDevices env h) as [infos|failed].
  - rewrite Hrun. split; [reflexivity|]. simpl.
    destruct s as [m|m swallowed]; simpl.
    + exact Hend.
    + destruct Hend as [Hsw Hfail]. simpl in Hsw. subst swallowed.
      destruct (swallowed_of env new); simpl; (split; [exact Hfail | reflexivity]).
  - destruct Hrun as (-> & -> & Hrun). rewrite Hrun. simpl.
    split; [reflexivity|]. split; [repeat constructor|]. split; reflexivity.
Qed.

(** X4.  Over all the rounds of [RunOnU2FDevices]: once a run of a
    callback on a device with a path ended in [ErrUnknownKeyHandle] or
    [ErrAlreadyRegistered], that callback is not run again on a device
    with that path. *)
Theorem RunOnU2FDevices_never_asks_again
    (rounds : nat) (runCredentials : list Credential) (h : list Event) :
  exists new,
    snd (RunOnU2FDevices env rounds runCredentials h) = new ++ h /\
    never_asked_again env new.
Proof.
  unfold RunOnU2FDevices, bind, emit.
  destruct (poll_run env rounds runCredentials ∅ (NewTicker :: h))
    as (r & new & Hrun & Hnaa & _ & _).
  rewrite Hrun.
  assert (Hnew : never_asked_again env (new ++ [NewTicker])).
  { apply never_asked_again_app; [apply never_asked_again_one | exact Hnaa |].
    intros ev key [<-|[]] Hrem. discriminate. }
  destruct r as [r|]; simpl.
  - exists (TickerStop :: new ++ [NewTicker]).
    split; [simpl; rewrite <- app_assoc; reflexivity|].
    apply never_asked_again_cons; [reflexivity | exact Hnew].
  - exists (new ++ [NewTicker]). split; [rewrite <- app_assoc; reflexivity | exact Hnew].
Qed.

(** X5.  [RunOnU2FDevices] returns nothing but nil or the error of the
    context: nil directly after a callback returned nil, the context's
    error directly after the [select] found the context done; errors of
    devices and callbacks are never returned.  In both cases the ticker
    has been stopped, and the function never panics. *)
Theorem RunOnU2FDevices_returns
    (rounds : nat) (runCredentials : list Credential) (h : list Event) :
  match RunOnU2FDevices env rounds runCredentials h with
  | (Ret None, _) => True
  | (Ret (Some r), h') =>
      exists ev older,
        h' = TickerStop :: ev :: older ++ NewTicker :: h /\
        (r = None /\ succeeded ev = true \/
         exists ctxErr, r = Some (Wrap ctxErr) /\ ev = Select (CtxDone ctxErr))
  | (Panic _, _) => False
  end.
Proof.
  unfold RunOnU2FDevices, bind, emit.
  destruct (poll_run env rounds runCredentials ∅ (NewTicker :: h))
    as (r & new & Hrun & _ & _ & Hend).
  rewrite Hrun. destruct r as [[err|]|]; simpl in *; [| |exact I].
  - destruct Hend as (ctxErr & older & -> & ->).
    exists (Select (CtxDone ctxErr)), older. split; [reflexivity|]. right. eauto.
  - destruct Hend as (ev & older & -> & Hok).
    exists ev, older. split; [reflexivity|]. left. auto.
Qed.

(** X6.  With a context that is never done and callbacks that never
    return nil, [RunOnU2FDevices] does not return, however many rounds it
    is given; in particular it never returns when it is given no callback
    at all. *)
Theorem RunOnU2FDevices_polls_on
    (runCredentials : list Credential) :
  (forall h, await env h = TickerC) ->
  never_succeed runCredentials ->
  forall rounds h, fst (RunOnU2FDevices env rounds runCredentials h) = Ret None.
Proof.
  intros Htick Hnever rounds h.
  assert (Hpoll : forall rounds removedDevices h,
            fst (poll env rounds runCredentials removedDevices h) = Ret None).
  { clear h rounds. induction rounds as [|rounds IH]; intros removedDevices h;
      [reflexivity|].
    simpl. unfold bind at 1.
    destruct (runOnU2FDevicesOnce_no_success env removedDevices runCredentials h Hnever)
      as (err & removed' & Hone).
    destruct (runOnU2FDevicesOnce env removedDevices runCredentials h) as [o h1].
    simpl in Hone. subst o. cbn [fst snd].
    unfold bind, call, emit, ret.
    destruct (errors_Is env err errKeyMissingOrNotVerified);
      [rewrite Htick; apply IH|].
    destruct (negb (strings_Contains (Error_text env err) "hid: privilege violation")
              && negb (strings_Contains (Error_text env err) "hid: not permitted"));
      rewrite Htick; apply IH. }
  unfold RunOnU2FDevices, bind, emit.
  specialize (Hpoll rounds ∅ (NewTicker :: h)).
  destruct (poll env rounds runCredentials ∅ (NewTicker :: h)) as [o h1].
  simpl in Hpoll. subst o. reflexivity.
Qed.

End Webauthncli_properties.

Section Webauthncli_instances.
Import Trace Webauthncli U2fScenario.

Lemma runOnU2FDevicesOnce_skips_removed_witness :
  (removed_get {[ (0, "/dev/hidraw0") := true ]} (0, "/dev/hidraw0") = true /\
   snd ((0, "/dev/hidraw0") : deviceKey) <> "") /\
  exists new,
    snd (runOnU2FDevicesOnce env_two_keys {[ (0, "/dev/hidraw0") := true ]}
           [unknown_everywhere] []) = new ++ [] /\
    Forall (fun ev => asks (0, "/dev/hidraw0") ev = false) new.
Proof.
  split; [split; [reflexivity | discriminate]|].
  apply (runOnU2FDevicesOnce_skips_removed env_two_keys); [reflexivity | discriminate].
Defined.

Lemma RunOnU2FDevices_polls_on_witness :
  ((forall h, await env_two_keys h = TickerC) /\ never_succeed [unknown_everywhere]) /\
  fst (RunOnU2FDevices env_two_keys 3 [unknown_everywhere] []) = Ret None.
Proof.
  assert (Hnever : never_succeed [unknown_everywhere])
    by (constructor; [intros h token; discriminate | constructor]).
  split; [split; [reflexivity | exact Hnever]|].
  apply (RunOnU2FDevices_polls_on env_two_keys [unknown_everywhere]);
    [reflexivity | exact Hnever].
Defined.

(** The user touches the second key during the second round: the first
    key is asked once, the second key twice. *)
Example RunOnU2FDevices_second_round :
  RunOnU2FDevices env_two_keys 5 [known_to_second] [] =
  (Ret (Some None),
   [ TickerStop;
     RunCredential 0 hidraw1 2 None;
     U2fNewToken 2 2; U2fOpen hidraw1 (Ok 2);
     U2fNewToken 1 1; U2fOpen hidraw0 (Ok 1);
     U2fDevices (Ok [hidraw0; hidraw1]);
     Select TickerC;
     RunCredential 0 hidraw1 2 (Some ErrPresenceRequired);
     U2fNewToken 2 2; U2fOpen hidraw1 (Ok 2);
     RunCredential 0 hidraw0 1 (Some ErrUnknownKeyHandle);
     U2fNewToken 1 1; U2fOpen hidraw0 (Ok 1);
     U2fDevices (Ok [hidraw0; hidraw1]);
     NewTicker ]).
Proof. vm_compute. reflexivity. Qed.

(** A context that is done ends the polling after the first pass. *)
Example RunOnU2FDevices_canceled :
  fst (RunOnU2FDevices env_canceled 5 [unknown_everywhere] []) =
  Ret (Some (Some canceled)).
Proof. vm_compute. reflexivity. Qed.

End Webauthncli_instances.

(** ** More on the dialer *)

Section Connect_properties.
Import Trace Authclient AuthclientLog.
Variable env : Env.
Variable ctx : Context.

Lemma count_app kind (a b : list Event) :
  count kind (a ++ b) = count kind a + count kind b.
Proof. unfold count. rewrite List.filter_app, List.length_app. reflexivity. Qed.

Ltac log_shape :=
  first [ exists (@nil Event); split; [reflexivity|]
        | eexists [_]; split; [reflexivity|]
        | eexists [_; _]; split; [reflexivity|]
        | eexists [_; _; _]; split; [reflexivity|]
        | eexists [_; _; _; _]; split; [reflexivity|]
        | eexists [_; _; _; _; _]; split; [reflexivity|]
        | eexists [_; _; _; _; _; _]; split; [reflexivity|] ].

Ltac count_done :=
  repeat split; try (repeat constructor); unfold count; simpl; try lia.

(** The direct attempt makes at most one client, pings at most once and
    leaves the tunnel path alone. *)
Lemma connectViaAuthDirect_counts cfg h :
  exists new,
    snd (connectViaAuthDirect env ctx cfg h) = new ++ h /\
    Forall (fun ev => tunnel_event ev = false) new /\
    count direct_client new <= 1 /\ count is_Ping new <= 1.
Proof.
  unfold connectViaAuthDirect, bind, call, emit, ret.
  destruct (auth_NewClient env h (directConfig env cfg)) as [c|e]; simpl.
  - destruct (client_Ping env _ ctx c) as [e|]; simpl; log_shape; count_done.
  - log_shape; count_done.
Qed.

(** The tunnel attempt makes at most one client, pings at most once and
    makes no client without a dialer. *)
Lemma connectViaProxyTunnel_counts cfg h :
  exists new,
    snd (connectViaProxyTunnel env ctx cfg h) = new ++ h /\
    Forall (fun ev => direct_client ev = false) new /\
    count tunnel_client new <= 1 /\ count is_Ping new <= 1.
Proof.
  unfold connectViaProxyTunnel, bind, call, emit, ret, raise.
  destruct (AuthServers cfg) as [|proxy rest]; simpl; [log_shape; count_done|].
  destruct (new_CachingResolver env _ ctx _) as [resolver|e]; simpl;
    [|log_shape; count_done].
  destruct (TLS cfg) as [tlsConfig|]; simpl; [|log_shape; count_done].
  destruct (new_TunnelAuthDialer env _ _) as [dialer|e]; simpl;
    [|log_shape; count_done].
  destruct (auth_NewClient env _ _) as [c|e]; simpl; [|log_shape; count_done].
  destruct (client_Ping env _ ctx c) as [e|]; simpl; log_shape; count_done.
Qed.

(** X7.  [Connect] does not retry and does not interleave its two paths.
    What it adds to the log splits into an older stretch, the direct
    attempt, which has no tunnel-path event, and a newer stretch, the
    tunnel attempt, which makes no direct client; each stretch makes at
    most one client and sends at most one ping, and without SSH
    credentials the newer stretch is empty. *)
Theorem Connect_dials_each_path_once (cfg : Config) (h : list Event) :
  exists tunnel_part direct_part,
    snd (Connect env ctx cfg h) = tunnel_part ++ direct_part ++ h /\
    Forall (fun ev => tunnel_event ev = false) direct_part /\
    Forall (fun ev => direct_client ev = false) tunnel_part /\
    count direct_client direct_part <= 1 /\ count is_Ping direct_part <= 1 /\
    count tunnel_client tunnel_part <= 1 /\ count is_Ping tunnel_part <= 1 /\
    (SSH cfg = None -> tunnel_part = []).
Proof.
  unfold Connect, bind, emit, raise.
  destruct (Log cfg) as [log|]; simpl.
  2:{ exists [], []. repeat split; try constructor; unfold count; simpl; lia. }
  destruct (connectViaAuthDirect_counts cfg (Connecting cfg log :: h))
    as (new1 & Hnew1 & Hquiet1 & Hclients1 & Hpings1).
  destruct (connectViaAuthDirect env ctx cfg (Connecting cfg log :: h)) as [o1 h1].
  simpl in Hnew1. subst h1.
  assert (Hdirect : Forall (fun ev => tunnel_event ev = false) (new1 ++ [Connecting cfg log]))
    by (apply Forall_app; split; [exact Hquiet1 | repeat constructor]).
  assert (Hc1 : count direct_client (new1 ++ [Connecting cfg log]) <= 1)
    by (rewrite count_app; unfold count at 2; simpl; lia).
  assert (Hp1 : count is_Ping (new1 ++ [Connecting cfg log]) <= 1)
    by (rewrite count_app; unfold count at 2; simpl; lia).
  assert (Hstop : exists tunnel_part direct_part,
            new1 ++ Connecting cfg log :: h = tunnel_part ++ direct_part ++ h /\
            Forall (fun ev => tunnel_event ev = false) direct_part /\
            Forall (fun ev => direct_client ev = false) tunnel_part /\
            count direct_client direct_part <= 1 /\ count is_Ping direct_part <= 1 /\
            count tunnel_client tunnel_part <= 1 /\ count is_Ping tunnel_part <= 1 /\
            (SSH cfg = None -> tunnel_part = [])).
  { exists [], (new1 ++ [Connecting cfg log]).
    split; [rewrite <- app_assoc; reflexivity|].
    repeat split; try assumption; try constructor; unfold count; simpl; lia. }
  destruct o1 as [[c|e1]|p]; simpl; [exact Hstop| |exact Hstop].
  destruct (SSH cfg) as [ssh|]; simpl; [|exact Hstop].
  destruct (connectViaProxyTunnel_counts cfg (new1 ++ Connecting cfg log :: h))
    as (new2 & Hnew2 & Hquiet2 & Hclients2 & Hpings2).
  destruct (connectViaProxyTunnel env ctx cfg (new1 ++ Connecting cfg log :: h)) as [o2 h2].
  simpl in Hnew2. subst h2.
  exists new2, (new1 ++ [Connecting cfg log]).
  assert (Hlog : new2 ++ new1 ++ Connecting cfg log :: h =
                 new2 ++ (new1 ++ [Connecting cfg log]) ++ h)
    by (rewrite <- app_assoc; reflexivity).
  destruct o2 as [[c|e2]|p]; simpl; (split; [exact Hlog|]);
    repeat split; try assumption; discriminate.
Qed.

(** The tunnel attempt does not panic when there is an address and a TLS
    configuration. *)
Lemma connectViaProxyTunnel_returns cfg h :
  AuthServers cfg <> [] -> TLS cfg <> None ->
  exists r, fst (connectViaProxyTunnel env ctx cfg h) = Ret r.
Proof.
  intros Haddrs Htls.
  unfold connectViaProxyTunnel, bind, call, emit, ret, raise.
  destruct (AuthServers cfg) as [|proxy rest]; [contradiction|]. simpl.
  destruct (new_CachingResolver env _ ctx _) as [resolver|e]; simpl;
    [|eexists; reflexivity].
  destruct (TLS cfg) as [tlsConfig|]; [|contradiction]. simpl.
  destruct (new_TunnelAuthDialer env _ _) as [dialer|e]; simpl; [|eexists; reflexivity].
  destruct (auth_NewClient env _ _) as [c|e]; simpl; [|eexists; reflexivity].
  destruct (client_Ping env _ ctx c) as [e|]; simpl; eexists; reflexivity.
Qed.

(** X8.  [Connect] returns a client or an error, and does not panic,
    when the configuration has a logger and either has no SSH credentials
    or has both an address and a TLS configuration. *)
Theorem Connect_returns (cfg : Config) (h : list Event) :
  Log cfg <> None ->
  SSH cfg = None \/ (AuthServers cfg <> [] /\ TLS cfg <> None) ->
  exists r, fst (Connect env ctx cfg h) = Ret r.
Proof.
  intros Hlog Hsafe. unfold Connect, bind, emit.
  destruct (Log cfg) as [log|]; [|contradiction]. simpl.
  destruct (connectViaAuthDirect_log env ctx cfg (Connecting cfg log :: h))
    as (new1 & _ & _ & _ & (r1 & Hr1)).
  destruct (connectViaAuthDirect env ctx cfg (Connecting cfg log :: h)) as [o1 h1].
  simpl in Hr1. subst o1.
  destruct r1 as [c|e1]; [eexists; reflexivity|].
  destruct (SSH cfg) as [ssh|]; [|eexists; reflexivity].
  destruct Hsafe as [Hssh|[Haddrs Htls]]; [discriminate|].
  destruct (connectViaProxyTunnel_returns cfg h1 Haddrs Htls) as (r2 & Hr2).
  destruct (connectViaProxyTunnel env ctx cfg h1) as [o2 h2].
  simpl in Hr2. subst o2. destruct r2 as [c|e2]; eexists; reflexivity.
Qed.

(** X9.  With an address but without a TLS configuration the tunnel
    attempt never gets past the resolvers: it makes the web-client
    resolver and the caching resolver and then, if the caching resolver
    could be made, panics on [cfg.TLS.RootCAs], and otherwise returns the
    caching resolver's error; no tunnel dialer and no client is made. *)
Theorem connectViaProxyTunnel_without_TLS
    (cfg : Config) (h : list Event) (proxy : NetAddr) (rest : list NetAddr) :
  AuthServers cfg = proxy :: rest ->
  TLS cfg = None ->
  exists webConfig resolver cached,
    snd (connectViaProxyTunnel env ctx cfg h) =
      [CachingResolver ctx resolver cached; WebClientResolver webConfig resolver] ++ h /\
    web_ProxyAddr webConfig = NetAddr_String env proxy /\
    fst (connectViaProxyTunnel env ctx cfg h) =
      match cached with
      | Ok _ => Panic (NilDereference "cfg.TLS")
      | Err err => Ret (Err (Wrap err))
      end.
Proof.
  intros Haddrs Htls.
  unfold connectViaProxyTunnel, bind, call, ret, raise. rewrite Haddrs. cbv zeta.
  match goal with
  | |- context [WebClientResolver ?w ?r] =>
      exists w, r, (new_CachingResolver env (WebClientResolver w r :: h) ctx r)
  end.
  destruct (new_CachingResolver env _ ctx _) as [resolver|e]; simpl.
  - rewrite Htls. simpl. repeat split.
  - repeat split.
Qed.

(** X10.  Of the address list the tunnel attempt uses the first address
    only: it does the same, whatever follows the first address. *)
Theorem connectViaProxyTunnel_first_address_only
    (cfg : Config) (h : list Event) (proxy : NetAddr) (rest rest' : list NetAddr) :
  AuthServers cfg = proxy :: rest ->
  connectViaProxyTunnel env ctx (with_AuthServers cfg (proxy :: rest')) h =
  connectViaProxyTunnel env ctx cfg h.
Proof.
  intros Haddrs. unfold connectViaProxyTunnel, tunnelConfig. rewrite Haddrs. reflexivity.
Qed.

(** X11.  An error that [Connect] returns tells which paths were tried:
    without SSH credentials it is the direct failure under the
    direct-dial message, with SSH credentials it is the aggregate of the
    direct failure and the tunnel failure, each under its message. *)
Theorem Connect_error_shapes (cfg : Config) (h : list Event) (err : error) :
  fst (Connect env ctx cfg h) = Ret (Err err) ->
  (SSH cfg = None /\ exists direct_failure, err = directErr direct_failure) \/
  (SSH cfg <> None /\
   exists direct_failure tunnel_failure,
     err = NewAggregate [directErr direct_failure; proxyTunnelErr tunnel_failure]).
Proof.
  unfold Connect, bind, emit, raise.
  destruct (Log cfg) as [log|]; simpl; [|discriminate].
  destruct (connectViaAuthDirect env ctx cfg (Connecting cfg log :: h)) as [[[c|e1]|p] h1];
    simpl; [discriminate| |discriminate].
  destruct (SSH cfg) as [ssh|]; simpl.
  - destruct (connectViaProxyTunnel env ctx cfg h1) as [[[c|e2]|p] h2];
      simpl; [discriminate| |discriminate].
    intros [= <-]. right. split; [discriminate|]. eauto.
  - intros [= <-]. left. split; [reflexivity|]. eauto.
Qed.

End Connect_properties.

Section Connect_properties_instances.
Import Trace Authclient AuthclientLog DialScenario.

Lemma Connect_returns_witness :
  (Log cfg_ssh <> None /\
   (SSH cfg_ssh = None \/ (AuthServers cfg_ssh <> [] /\ TLS cfg_ssh <> None))) /\
  exists r, fst (Connect env_no_pong 0 cfg_ssh []) = Ret r.
Proof.
  assert (Hsafe : SSH cfg_ssh = None \/ (AuthServers cfg_ssh <> [] /\ TLS cfg_ssh <> None))
    by (right; split; discriminate).
  split; [split; [discriminate | exact Hsafe]|].
  apply (Connect_returns env_no_pong 0 cfg_ssh []); [discriminate | exact Hsafe].
Defined.

Lemma connectViaProxyTunnel_without_TLS_witness :
  (AuthServers cfg_no_tls = [proxy] /\ TLS cfg_no_tls = None) /\
  exists webConfig resolver cached,
    snd (connectViaProxyTunnel env_down 0 cfg_no_tls []) =
      [CachingResolver 0 resolver cached; WebClientResolver webConfig resolver] ++ [] /\
    web_ProxyAddr webConfig = NetAddr_String env_down proxy /\
    fst (connectViaProxyTunnel env_down 0 cfg_no_tls []) =
      match cached with
      | Ok _ => Panic (NilDereference "cfg.TLS")
      | Err err => Ret (Err (Wrap err))
      end.
Proof.
  split; [split; reflexivity|].
  exact (connectViaProxyTunnel_without_TLS env_down 0 cfg_no_tls [] proxy []
           eq_refl eq_refl).
Defined.

Lemma connectViaProxyTunnel_first_address_only_witness :
  AuthServers cfg_ssh = [proxy] /\
  connectViaProxyTunnel env_down 0 (with_AuthServers cfg_ssh [proxy; proxy]) [] =
  connectViaProxyTunnel env_down 0 cfg_ssh [].
Proof.
  split; [reflexivity|].
  exact (connectViaProxyTunnel_first_address_only env_down 0 cfg_ssh [] proxy [] [proxy]
           eq_refl).
Defined.

Lemma Connect_error_shapes_witness :
  fst (Connect env_down 0 cfg_ssh []) =
    Ret (Err (NewAggregate [directErr refused; proxyTunnelErr no_tunnel])) /\
  ((SSH cfg_ssh = None /\
    exists direct_failure,
      NewAggregate [directErr refused; proxyTunnelErr no_tunnel] = directErr direct_failure) \/
   (SSH cfg_ssh <> None /\
    exists direct_failure tunnel_failure,
      NewAggregate [directErr refused; proxyTunnelErr no_tunnel] =
      NewAggregate [directErr direct_failure; proxyTunnelErr tunnel_failure])).
Proof.
  split; [reflexivity|].
  exact (Connect_error_shapes env_down 0 cfg_ssh [] _ eq_refl).
Defined.

End Connect_properties_instances.

(** ** More on the authorizing tunnel *)

Section TunnelWithRoles_properties.
Import Trace Reversetunnelclient TunnelLog.

(** What [GetSite] returns for a site, in terms of the filtering rules. *)
Lemma GetSite_included opaque t cluster h :
  tunnel_GetSite (tunnel t) (GetName cluster) = Ok cluster ->
  (fst (GetSite opaque t (GetName cluster) h) = Ret (Ok cluster) <->
   included t cluster = true).
Proof.
  intros Hsite.
  unfold GetSite, bind, do_tunnel_GetSite, do_GetRemoteCluster, do_CheckAccess, call.
  cbv zeta. rewrite Hsite. unfold included, decide_site.
  destruct (String.eqb (localCluster t) (GetName cluster)); simpl; [tauto|].
  destruct (GetRemoteCluster (access t) (GetName cluster)) as [rc|err]; simpl.
  - destruct (CheckAccessToRemoteCluster (accessChecker t) rc) as [err|]; simpl; [|tauto].
    destruct (IsAccessDenied err); split; discriminate.
  - destruct (IsNotFound err); split; discriminate.
Qed.

(** X12.  [GetSites] and [GetSite] agree on every site the tunnel reports
    under its name: when [GetSites] returns a list, a site of the
    underlying list is in it exactly if [GetSite], asked for the site's
    name, returns that site. *)
Theorem GetSite_agrees_with_GetSites
    (opaque : error -> error) (t : TunnelWithRoles) (h h' : list Event)
    (clusters out : list RemoteSite) (cluster : RemoteSite) :
  tunnel_GetSites (tunnel t) = Ok clusters ->
  fst (GetSites t h) = Ret (Ok out) ->
  In cluster clusters ->
  tunnel_GetSite (tunnel t) (GetName cluster) = Ok cluster ->
  (In cluster out <-> fst (GetSite opaque t (GetName cluster) h') = Ret (Ok cluster)).
Proof.
  intros Hsites Hres Hin Hsite.
  rewrite GetSites_result, Hsites in Hres.
  destruct (first_abort t clusters); [discriminate|].
  injection Hres as <-.
  rewrite (GetSite_included opaque t cluster h' Hsite), List.filter_In. tauto.
Qed.

(** X13.  The loop of [GetSites] stops at the first site on which the
    rules abort: on a list that goes on after such a site it does what it
    does on the list cut after that site, with the same result and the
    same calls, so that no later site is looked up or checked. *)
Theorem GetSites_range_stops_at_abort
    (t : TunnelWithRoles) (pre post : list RemoteSite) (cluster : RemoteSite)
    (e : error) :
  decide_site t cluster = Abort e ->
  forall out h,
    GetSites_range t (pre ++ cluster :: post) out h =
    GetSites_range t (pre ++ [cluster]) out h.
Proof.
  intros Habort.
  induction pre as [|c pre IH]; intros out h; simpl.
  - unfold decide_site in Habort.
    destruct (String.eqb (localCluster t) (GetName cluster)); [discriminate|].
    unfold bind, do_GetRemoteCluster, do_CheckAccess, call, emit. cbv zeta.
    destruct (GetRemoteCluster (access t) (GetName cluster)) as [rc|err].
    + destruct (CheckAccessToRemoteCluster (accessChecker t) rc) as [err|]; [|discriminate].
      destruct (IsAccessDenied err); [discriminate | reflexivity].
    + destruct (IsNotFound err); [discriminate | reflexivity].
  - destruct (String.eqb (localCluster t) (GetName c)); [apply IH|].
    unfold bind, do_GetRemoteCluster, do_CheckAccess, call, emit. cbv zeta.
    destruct (GetRemoteCluster (access t) (GetName c)) as [rc|err].
    + destruct (CheckAccessToRemoteCluster (accessChecker t) rc) as [err|]; [|apply IH].
      destruct (IsAccessDenied err); [apply IH | reflexivity].
    + destruct (IsNotFound err); [apply IH | reflexivity].
Qed.

Lemma GetSites_range_checks t clusters : forall out h,
  checks_follow_lookups h ->
  checks_follow_lookups (snd (GetSites_range t clusters out h)).
Proof.
  induction clusters as [|c rest IH]; intros out h Hh; simpl; [exact Hh|].
  destruct (String.eqb (localCluster t) (GetName c)); [apply IH; exact Hh|].
  unfold bind, do_GetRemoteCluster, do_CheckAccess, call, emit. cbv zeta.
  assert (Hlookup : forall r, checks_follow_lookups (CallGetRemoteCluster (GetName c) r :: h))
    by (intros r; apply cfl_other; [reflexivity | exact Hh]).
  destruct (GetRemoteCluster (access t) (GetName c)) as [rc|err].
  - assert (Hcheck : forall r, checks_follow_lookups
              (CallCheckAccess (GetName c) rc r :: CallGetRemoteCluster (GetName c) (Ok rc) :: h))
      by (intros r; apply cfl_check; apply Hlookup).
    destruct (CheckAccessToRemoteCluster (accessChecker t) rc) as [err|].
    + destruct (IsAccessDenied err); simpl; [apply IH|]; apply Hcheck.
    + apply IH. apply Hcheck.
  - destruct (IsNotFound err); simpl; [|apply Hlookup].
    apply IH. apply cfl_other; [reflexivity | apply Hlookup].
Qed.

(** X14.  [GetSites] makes every access check directly after a
    successful lookup for the same site and on the very resource that the
    lookup returned: a log that has this form keeps it. *)
Theorem GetSites_checks_follow_lookups (t : TunnelWithRoles) (h : list Event) :
  checks_follow_lookups h ->
  checks_follow_lookups (snd (GetSites t h)).
Proof.
  intros Hh. unfold GetSites, bind, do_tunnel_GetSites, call. cbv zeta.
  assert (Hsites : forall r, checks_follow_lookups (CallTunnelGetSites r :: h))
    by (intros r; apply cfl_other; [reflexivity | exact Hh]).
  destruct (tunnel_GetSites (tunnel t)) as [clusters|err]; simpl; [|apply Hsites].
  apply GetSites_range_checks. apply Hsites.
Qed.

Lemma first_abort_filter_included t clusters :
  first_abort t (List.filter (included t) clusters) = None.
Proof.
  induction clusters as [|c rest IH]; simpl; [reflexivity|].
  destruct (included t c) eqn:Hc; [|exact IH].
  simpl. unfold included in Hc. destruct (decide_site t c); [exact IH | discriminate..].
Qed.

Lemma filter_included_idempotent t clusters :
  List.filter (included t) (List.filter (included t) clusters) =
  List.filter (included t) clusters.
Proof.
  induction clusters as [|c rest IH]; simpl; [reflexivity|].
  destruct (included t c) eqn:Hc; [|exact IH].
  simpl. rewrite Hc, IH. reflexivity.
Qed.

(** X15.  Filtering twice changes nothing: over an underlying tunnel
    that reports exactly the list [GetSites] returned, [GetSites] returns
    that list again, without error. *)
Theorem GetSites_idempotent
    (t : TunnelWithRoles) (h h' : list Event) (out : list RemoteSite) :
  fst (GetSites t h) = Ret (Ok out) ->
  fst (GetSites (with_sites t out) h') = Ret (Ok out).
Proof.
  intros Hres. rewrite GetSites_result in Hres. rewrite GetSites_result.
  change (tunnel_GetSites (tunnel (with_sites t out))) with (Ok out).
  cbv beta iota. rewrite first_abort_with_sites.
  change (included (with_sites t out)) with (included t).
  destruct (tunnel_GetSites (tunnel t)) as [clusters|err]; [|discriminate].
  destruct (first_abort t clusters); [discriminate|].
  injection Hres as <-.
  rewrite first_abort_filter_included, filter_included_idempotent. reflexivity.
Qed.

End TunnelWithRoles_properties.

Section TunnelWithRoles_properties_instances.
Import Trace Reversetunnelclient TunnelLog Scenario.

Lemma GetSite_agrees_with_GetSites_witness :
  (tunnel_GetSites (tunnel t_granted) = Ok [root; leaf; edge] /\
   fst (GetSites t_granted []) = Ret (Ok [root; leaf]) /\
   In edge [root; leaf; edge] /\
   tunnel_GetSite (tunnel t_granted) (GetName edge) = Ok edge) /\
  (In edge [root; leaf] <->
   fst (GetSite OpaqueAccessDenied_spec t_granted (GetName edge) []) = Ret (Ok edge)).
Proof.
  split; [repeat split; right; right; left; reflexivity|].
  exact (GetSite_agrees_with_GetSites OpaqueAccessDenied_spec t_granted [] []
           [root; leaf; edge] [root; leaf] edge
           eq_refl eq_refl (or_intror (or_intror (or_introl eq_refl))) eq_refl).
Defined.

Lemma GetSites_range_stops_at_abort_witness :
  decide_site t_broken leaf = Abort (New BadParameter "role set could not be evaluated") /\
  GetSites_range t_broken ([root] ++ leaf :: [edge]) [] [] =
  GetSites_range t_broken ([root] ++ [leaf]) [] [].
Proof.
  split; [reflexivity|].
  exact (GetSites_range_stops_at_abort t_broken [root] [edge] leaf _ eq_refl [] []).
Defined.

Lemma GetSites_checks_follow_lookups_witness :
  checks_follow_lookups [] /\ checks_follow_lookups (snd (GetSites t_denied [])).
Proof.
  split; [constructor|].
  exact (GetSites_checks_follow_lookups t_denied [] cfl_nil).
Defined.

Lemma GetSites_idempotent_witness :
  fst (GetSites t_granted []) = Ret (Ok [root; leaf]) /\
  fst (GetSites (with_sites t_granted [root; leaf]) []) = Ret (Ok [root; leaf]).
Proof.
  split; [reflexivity|].
  exact (GetSites_idempotent t_granted [] [] [root; leaf] eq_refl).
Defined.

End TunnelWithRoles_properties_instances.
